(** * evmapy: the configuration subsystem and the axis hysteresis latch

    A shallow embedding of [evmapy/config.py]: path resolution
    ([_get_device_config_path], [load]), error classification
    ([ConfigError]), default configuration synthesis ([generate], [create],
    [save]) and the transformation of a configuration dictionary into an
    event map ([parse]).  Python values are JSON-shaped trees, dictionaries
    are finite maps, exceptions are values of an error monad.  The axis
    hysteresis latch of the event source is modelled from its description,
    the event source itself not being part of the sources at hand. *)

From stdpp Require Import gmap strings list fin_maps.
From Stdlib Require Import Ascii QArith.

#[local] Set Warnings "-register-all,-clear-no-such-hyp".
#[local] Open Scope Z_scope.

(** ** Python values, exceptions and the error monad *)

Module Py.

(** The values [json.load] builds and [generate] assembles: [None],
    booleans, integers, strings, lists and dictionaries with string keys.
    Such a value is a tree: no dictionary object is reachable along two
    different paths. *)
Inductive pyval :=
| PNone
| PBool (b : bool)
| PInt (n : Z)
| PStr (s : string)
| PList (l : list pyval)
| PDict (d : gmap string pyval).

(** The exception classes that the modelled code can meet, with the part of
    the built-in hierarchy they live in. *)
Inductive exn_class :=
| Exception
| ValueError | JSONDecodeError | UnicodeDecodeError
| OSError | FileNotFoundError | FileExistsError | IsADirectoryError
| NotADirectoryError | PermissionError
| LookupError | KeyError | IndexError
| TypeError | AttributeError.

#[global] Instance exn_class_eq_dec : EqDecision exn_class.
Proof. solve_decision. Defined.

Definition base (c : exn_class) : option exn_class :=
  match c with
  | Exception => None
  | ValueError | OSError | LookupError | TypeError | AttributeError =>
      Some Exception
  | JSONDecodeError | UnicodeDecodeError => Some ValueError
  | FileNotFoundError | FileExistsError | IsADirectoryError
  | NotADirectoryError | PermissionError => Some OSError
  | KeyError | IndexError => Some LookupError
  end.

(** [issubclass c d]: [d] is [c] or one of its ancestors (the hierarchy
    above has depth three). *)
Fixpoint issubclass_upto (fuel : nat) (c d : exn_class) : bool :=
  bool_decide (c = d) ||
  match fuel, base c with
  | S fuel', Some c' => issubclass_upto fuel' c' d
  | _, _ => false
  end.

Definition issubclass : exn_class → exn_class → bool := issubclass_upto 3.

(** A raised exception: its class and the argument it was raised with. *)
Record exn := Exn { exn_cls : exn_class; exn_arg : string }.

Definition isinstance (e : exn) (c : exn_class) : bool :=
  issubclass (exn_cls e) c.

(** The outcome of a call: a value, or a raised exception. *)
Inductive result (E A : Type) :=
| Ok (a : A)
| Err (e : E).
Arguments Ok {E A} a.
Arguments Err {E A} e.

#[global] Instance result_ret {E} : MRet (result E) := λ A a, Ok a.
#[global] Instance result_bind {E} : MBind (result E) := λ A B f r,
  match r with
  | Ok a => f a
  | Err e => Err e
  end.

Definition raise {A} (c : exn_class) (arg : string) : result exn A :=
  Err (Exn c arg).

(** [v[k]] for a string [k]: only a dictionary can be subscripted with a
    string; a missing key raises [KeyError]. *)
Definition getitem (v : pyval) (k : string) : result exn pyval :=
  match v with
  | PDict d =>
      match d !! k with
      | Some x => Ok x
      | None => raise KeyError k
      end
  | PList _ => raise TypeError "list indices must be integers"
  | PStr _ => raise TypeError "string indices must be integers"
  | _ => raise TypeError "object is not subscriptable"
  end.

(** [v[k] = x] for a string [k]. *)
Definition setitem (v : pyval) (k : string) (x : pyval) : result exn pyval :=
  match v with
  | PDict d => Ok (PDict (<[k := x]> d))
  | PList _ => raise TypeError "list indices must be integers"
  | _ => raise TypeError "object does not support item assignment"
  end.

(** The items a [for] loop over [v] visits: the elements of a list, the
    keys of a dictionary, the characters of a string. *)
Definition iter (v : pyval) : result exn (list pyval) :=
  match v with
  | PList l => Ok l
  | PDict d => Ok (PStr <$> (map_to_list d).*1)
  | PStr s =>
      Ok ((λ c, PStr (String c EmptyString)) <$> String.list_ascii_of_string s)
  | _ => raise TypeError "object is not iterable"
  end.

(** Keys of a dictionary that is indexed by arbitrary hashable values, as
    the event map is.  Python compares [True] and [1] (and [False] and [0])
    equal and hashes them alike, so they are one key. *)
Inductive key :=
| KNone
| KInt (n : Z)
| KStr (s : string).

#[global] Instance key_eq_dec : EqDecision key.
Proof. solve_decision. Defined.

#[global] Instance key_countable : Countable key.
Proof.
  refine (inj_countable'
    (λ k, match k with
          | KNone => inl ()
          | KInt n => inr (inl n)
          | KStr s => inr (inr s)
          end)
    (λ x, match x with
          | inl _ => KNone
          | inr (inl n) => KInt n
          | inr (inr s) => KStr s
          end) _).
  by intros [].
Defined.

(** [hash v], as far as using [v] as a dictionary key goes. *)
Definition hash (v : pyval) : result exn key :=
  match v with
  | PNone => Ok KNone
  | PBool b => Ok (KInt (if b then 1 else 0))
  | PInt n => Ok (KInt n)
  | PStr s => Ok (KStr s)
  | PList _ => raise TypeError "unhashable type: 'list'"
  | PDict _ => raise TypeError "unhashable type: 'dict'"
  end.

(** Reading a value without raising: [v[k]] if [v] is a dictionary that
    has the key, and the field [f] of the action [v[slot]]. *)
Definition field (v : pyval) (k : string) : option pyval :=
  match v with
  | PDict d => d !! k
  | _ => None
  end.

Definition action_field (v : pyval) (slot f : string) : option pyval :=
  a ← field v slot; field a f.

(** Truth value of an optional string ([None] and [''] are false). *)
Definition truthy (name : option string) : bool :=
  match name with
  | None => false
  | Some s => negb (bool_decide (s = ""))
  end.

End Py.

Import Py.

(** ** [os.path] for POSIX and the word characters of [re] *)

Module PosixPath.

Definition sep : ascii := "/"%char.

(** [p.rfind('/')]: the index of the last separator, [-1] without one. *)
Fixpoint rfind_sep (p : string) : Z :=
  match p with
  | EmptyString => -1
  | String c r =>
      let i := rfind_sep r in
      if 0 <=? i then i + 1
      else if Ascii.eqb c sep then 0 else -1
  end.

(** [p[i:]] for [0 <= i]. *)
Fixpoint drop_chars (i : nat) (p : string) : string :=
  match i, p with
  | S i', String _ r => drop_chars i' r
  | _, _ => p
  end.

(** [posixpath.basename]: [i = p.rfind(sep) + 1; return p[i:]]. *)
Definition basename (p : string) : string :=
  drop_chars (Z.to_nat (rfind_sep p + 1)) p.

Definition startswith_sep (p : string) : bool :=
  match p with
  | String c _ => Ascii.eqb c sep
  | EmptyString => false
  end.

Fixpoint endswith_sep (p : string) : bool :=
  match p with
  | EmptyString => false
  | String c EmptyString => Ascii.eqb c sep
  | String _ r => endswith_sep r
  end.

(** [posixpath.join(a, b)] with one component [b]: an absolute [b] replaces
    [a]; otherwise [b] is appended, after a separator unless [a] is empty
    or already ends with one. *)
Definition join (a b : string) : string :=
  if startswith_sep b then b
  else if bool_decide (a = "") || endswith_sep a then a +:+ b
  else a +:+ String sep b.

Fixpoint has_sep (p : string) : bool :=
  match p with
  | EmptyString => false
  | String c r => Ascii.eqb c sep || has_sep r
  end.

(** *** Staying inside a directory

    Following the words of the specification ("a file inside the
    configuration directory", a path that does not "escape" it): [p] is
    inside [d] when it is [d], a separator, and a relative remainder whose
    components never climb above [d]. *)

Definition dir_prefix (d : string) : string :=
  if bool_decide (d = "") || endswith_sep d then d else d +:+ String sep "".

Fixpoint strip_prefix (pre p : string) : option string :=
  match pre, p with
  | EmptyString, _ => Some p
  | String a pre', String b p' =>
      if Ascii.eqb a b then strip_prefix pre' p' else None
  | String _ _, EmptyString => None
  end.

(** The components of a path, split at the separators. *)
Fixpoint components_from (cur : string) (p : string) : list string :=
  match p with
  | EmptyString => [cur]
  | String c r =>
      if Ascii.eqb c sep then cur :: components_from "" r
      else components_from (cur +:+ String c "") r
  end.

Definition components : string → list string := components_from "".

Fixpoint descends (depth : nat) (cs : list string) : bool :=
  match cs with
  | [] => true
  | c :: cs' =>
      if bool_decide (c = "..") then
        match depth with
        | O => false
        | S depth' => descends depth' cs'
        end
      else if bool_decide (c = "") || bool_decide (c = ".") then
        descends depth cs'
      else descends (S depth) cs'
  end.

Definition inside_dir (d p : string) : bool :=
  match strip_prefix (dir_prefix d) p with
  | Some rel =>
      (negb (bool_decide (d = "")) || negb (startswith_sep rel))
      && descends 0 (components rel)
  | None => false
  end.

End PosixPath.

Module Re.

(** The characters [\w] matches in a [str] pattern: letters, digits and
    numeric characters of Unicode, and the underscore.  Characters are code
    points below 256 here; the table lists those of them that are
    alphanumeric. *)
Definition is_word (c : ascii) : bool :=
  let n := N_of_ascii c in
  ((48 <=? n) && (n <=? 57) ||
   (65 <=? n) && (n <=? 90) ||
   (97 <=? n) && (n <=? 122) ||
   (n =? 95) ||
   (n =? 170) || (n =? 178) || (n =? 179) || (n =? 181) ||
   (n =? 185) || (n =? 186) || (n =? 188) || (n =? 189) || (n =? 190) ||
   (192 <=? n) && (n <=? 214) ||
   (216 <=? n) && (n <=? 246) ||
   (248 <=? n) && (n <=? 255))%N.

(** [re.sub(r'[^\w]', '.', s)] *)
Fixpoint sub_nonword (s : string) : string :=
  match s with
  | EmptyString => EmptyString
  | String c r =>
      String (if is_word c then c else "."%char) (sub_nonword r)
  end.

End Re.

(** ** What [evdev] reports about a device *)

Module Evdev.

(** [evdev.ecodes.ecodes['EV_KEY']] and [evdev.ecodes.ecodes['EV_ABS']] *)
Definition EV_KEY : Z := 1.
Definition EV_ABS : Z := 3.

Record AbsInfo := {
  value : Z;
  min : Z;
  max : Z;
  fuzz : Z;
  flat : Z;
  resolution : Z;
}.

(** With [verbose=True] a code is resolved to its name, or to the list of
    its names when it has several. *)
Inductive names :=
| Name (s : string)
| Names (l : list string).

(** The first component of an event of a capability listing: the resolved
    names, paired with the code for an axis listed with its [AbsInfo]. *)
Inductive event_names :=
| Resolved (n : names)
| ResolvedCode (n : names) (code : Z).

(** One item of [device.capabilities(verbose=True, absinfo=True)]: the key
    [(type_name, type_id)] and the events of that type.  Events are pairs
    [(names, code)], except that [absinfo=True] turns the events of the key
    [('EV_ABS', 3)] into pairs [((names, code), AbsInfo)]. *)
Inductive cap_entry :=
| CodeCap (type_name : string) (type_id : Z) (events : list (names * Z))
| AbsCap (type_name : string) (events : list (names * Z * AbsInfo)).

Record InputDevice := {
  name : string;
  fn : string;
  capabilities : list cap_entry;
}.

End Evdev.

(** ** The collaborators of [evmapy.config]

    What the module calls but does not define: [evmapy.util], the [json]
    codec, [str] on exceptions, and the operating system (the file system
    and the device nodes, whose state is a value of [fs]).  A call that
    raises leaves that state as it was, but for the writing of a file,
    which can raise with part of the text already in the file. *)

Class Platform := {
  fs : Type;
  (** [evmapy.util.get_app_info()['config_dir']] *)
  config_dir : string;
  (** [evmapy.util.first_element] *)
  first_element : Evdev.event_names → string;
  (** [json.load] on the text of a file; [None] when it is not JSON *)
  json_loads : string → option pyval;
  (** [json.dump(config, f, indent=4, sort_keys=True)] *)
  json_dumps : pyval → string;
  (** [str(exc)] *)
  exn_str : exn → string;
  (** [os.path.exists] *)
  path_exists : fs → string → bool;
  (** [os.mkdir] *)
  mkdir : fs → string → result exn fs;
  (** [open(path)] followed by reading the file *)
  open_read : fs → string → result exn string;
  (** [open(path, 'w')]: the file is there and empty once this returns *)
  open_w : fs → string → result exn fs;
  (** writing the text to the file opened at the path and closing it;
      when this raises, the file holds whatever was written until then *)
  dump : fs → string → string → fs * result exn ();
  (** [evdev.InputDevice(dev_path)] *)
  open_device : fs → string → result exn Evdev.InputDevice;
}.

(** ** [evmapy/config.py] *)

Module Config.

Import PosixPath.

(** A loop whose body may raise. *)
Fixpoint for_each {S A} (body : S → A → result exn S) (st : S) (l : list A)
  : result exn S :=
  match l with
  | [] => Ok st
  | a :: l' => st' ← body st a; for_each body st' l'
  end.

(** [v[k1][k2] = x]: the dictionary [v[k1]] is updated in place, so [v]
    holds the updated dictionary afterwards. *)
Definition setitem2 (v : pyval) (k1 k2 : string) (x : pyval)
  : result exn pyval :=
  inner ← getitem v k1;
  inner' ← setitem inner k2 x;
  setitem v k1 inner'.

(** *** [parse] *)

(** The body of the loop over [config['buttons']]. *)
Definition parse_button (st : Z * gmap key pyval) (button : pyval)
  : result exn (Z * gmap key pyval) :=
  let '(current_id, eventmap) := st in
  button ← setitem2 button "press" "id" (PInt current_id);
  let current_id := current_id + 1 in
  code ← getitem button "code";
  k ← hash code;
  Ok (current_id, <[k := button]> eventmap).

(** The body of the loop over [('min', 'max')]. *)
Definition parse_limit (st : Z * pyval) (limit : string)
  : result exn (Z * pyval) :=
  let '(current_id, axis) := st in
  axis ← setitem2 axis limit "id" (PInt current_id);
  axis ← setitem2 axis limit "state" (PStr "up");
  Ok (current_id + 1, axis).

(** The body of the loop over [config['axes']]. *)
Definition parse_axis (st : Z * gmap key pyval) (axis : pyval)
  : result exn (Z * gmap key pyval) :=
  let '(current_id, eventmap) := st in
  '(current_id, axis) ←
    for_each parse_limit (current_id, axis) ["min"; "max"];
  code ← getitem axis "code";
  k ← hash code;
  Ok (current_id, <[k := axis]> eventmap).

Definition parse (config : pyval) : result exn (gmap key pyval) :=
  let eventmap : gmap key pyval := ∅ in
  let current_id := 0 in
  grab ← getitem config "grab";
  let eventmap := <[KStr "grab" := grab]> eventmap in
  buttons ← getitem config "buttons";
  buttons ← iter buttons;
  st ← for_each parse_button (current_id, eventmap) buttons;
  axes ← getitem config "axes";
  axes ← iter axes;
  st ← for_each parse_axis st axes;
  Ok st.2.

(** *** The loops of [parse], one control at a time

    What one turn of each loop does to the control it visits, and the list
    of the descriptors the loops store, in the order they store them. *)

(** The button after [button['press']['id'] = current_id]. *)
Definition mark_button (current_id : Z) (button : pyval) : result exn pyval :=
  setitem2 button "press" "id" (PInt current_id).

(** The axis after the two turns of the loop over [('min', 'max')]. *)
Definition mark_axis (current_id : Z) (axis : pyval) : result exn pyval :=
  axis ← setitem2 axis "min" "id" (PInt current_id);
  axis ← setitem2 axis "min" "state" (PStr "up");
  axis ← setitem2 axis "max" "id" (PInt (current_id + 1));
  setitem2 axis "max" "state" (PStr "up").

(** One endpoint of an axis after the turn of the loop for it. *)
Definition marked_limit (current_id : Z) (a : gmap string pyval) : pyval :=
  PDict (<["state" := PStr "up"]> (<["id" := PInt current_id]> a)).

(** The key [eventmap[entry['code']] = entry] stores under. *)
Definition entry_key (entry : pyval) : result exn key :=
  code ← getitem entry "code"; hash code.

Fixpoint marked_buttons (current_id : Z) (l : list pyval)
  : result exn (list (key * pyval)) :=
  match l with
  | [] => Ok []
  | button :: l' =>
      button ← mark_button current_id button;
      k ← entry_key button;
      rest ← marked_buttons (current_id + 1) l';
      Ok ((k, button) :: rest)
  end.

Fixpoint marked_axes (current_id : Z) (l : list pyval)
  : result exn (list (key * pyval)) :=
  match l with
  | [] => Ok []
  | axis :: l' =>
      axis ← mark_axis current_id axis;
      k ← entry_key axis;
      rest ← marked_axes (current_id + 2) l';
      Ok ((k, axis) :: rest)
  end.

(** The items the loop over [config[k]] visits. *)
Definition listed (config : pyval) (k : string) : result exn (list pyval) :=
  l ← getitem config k; iter l.

(** The descriptors of the listed buttons and of the listed axes, each with
    the key it is stored under. *)
Definition descriptors (config : pyval)
  : result exn (list (key * pyval) * list (key * pyval)) :=
  bl ← listed config "buttons";
  bs ← marked_buttons 0 bl;
  al ← listed config "axes";
  axs ← marked_axes (Z.of_nat (length bl)) al;
  Ok (bs, axs).

(** [eventmap[k] = entry] for each item of the list, in order. *)
Definition store_all (items : list (key * pyval)) (eventmap : gmap key pyval)
  : gmap key pyval :=
  foldl (λ m item, <[item.1 := item.2]> m) eventmap items.

(** The actions that were given an id, in the order of the assignments:
    the press action of each button, then the min and the max action of
    each axis.  An action is named by its descriptor and its slot. *)
Definition allocated (bs axs : list (key * pyval)) : list (pyval * string) :=
  ((λ item, (item.2, "press")) <$> bs) ++
  (axs ≫= λ item, [(item.2, "min"); (item.2, "max")]).

Definition action_id (a : pyval * string) : option pyval :=
  action_field a.1 a.2 "id".

(** The ids that an event map holds: those of the press, min and max
    actions of its entries. *)
Definition id_value (v : pyval) : option Z :=
  match v with
  | PInt n => Some n
  | _ => None
  end.

Definition entry_ids (entry : pyval) : list Z :=
  omap (λ slot, action_field entry slot "id" ≫= id_value)
    ["press"; "min"; "max"].

Definition eventmap_ids (eventmap : gmap key pyval) : gset Z :=
  list_to_set ((map_to_list eventmap).*2 ≫= entry_ids).

(** What the loops need of a listed control to go through: a dictionary
    with a [press] action (for an axis, a [min] and a [max] action) that is
    a dictionary, and a hashable [code]. *)
Definition well_formed_button (b : pyval) : Prop :=
  ∃ d pd c k, b = PDict d ∧ d !! "press" = Some (PDict pd)
    ∧ d !! "code" = Some c ∧ hash c = Ok k.

Definition well_formed_axis (a : pyval) : Prop :=
  ∃ d mn mx c k, a = PDict d ∧ d !! "min" = Some (PDict mn)
    ∧ d !! "max" = Some (PDict mx)
    ∧ d !! "code" = Some c ∧ hash c = Ok k.

(** The exceptions of subscripting: a [TypeError], or the [KeyError] of one
    of the given keys. *)
Definition key_or_type_error (keys : list string) (e : exn) : Prop :=
  exn_cls e = TypeError ∨ (exn_cls e = KeyError ∧ exn_arg e ∈ keys).

(** *** [generate] *)

Section WithPlatform.
Context {P : Platform}.

Definition action (event_name : string) : gmap string pyval :=
  {[ "trigger" := PStr "normal";
     "type" := PStr "exec";
     "target" := PStr ("echo " +:+ event_name) ]}.

(** [a['target'] += suffix] *)
Definition append_target (a : gmap string pyval) (suffix : string)
  : gmap string pyval :=
  match a !! "target" with
  | Some (PStr t) => <["target" := PStr (t +:+ suffix)]> a
  | _ => a
  end.

(** The lists [config['axes']] and [config['buttons']] while they grow. *)
Record lists := { axes : list pyval; buttons : list pyval }.

(** The dictionary appended to [config['buttons']]. *)
Definition button_entry (event_name : string) (activator : Z) : pyval :=
  PDict {[ "alias" := PStr event_name;
           "code" := PInt activator;
           "press" := PDict (action event_name) ]}.

(** The dictionary appended to [config['axes']]: its actions are copies of
    [action], each with its [value] and its suffixed [target]. *)
Definition axis_entry (event_name : string) (code : Z)
    (activator : Evdev.AbsInfo) : pyval :=
  let actions_min :=
    append_target (<["value" := PInt (Evdev.min activator)]>
                     (action event_name)) " min" in
  let actions_max :=
    append_target (<["value" := PInt (Evdev.max activator)]>
                     (action event_name)) " max" in
  PDict {[ "alias" := PStr event_name;
           "code" := PInt code;
           "min" := PDict actions_min;
           "max" := PDict actions_max ]}.

Definition generate_code_event (event_type_id : Z) (config : lists)
    (event : Evdev.names * Z) : result exn lists :=
  let '(event_names, activator) := event in
  let event_name := first_element (Evdev.Resolved event_names) in
  if bool_decide (event_type_id = Evdev.EV_KEY) then
    Ok {| axes := axes config;
          buttons := buttons config ++ [button_entry event_name activator] |}
  else if bool_decide (event_type_id = Evdev.EV_ABS) then
    raise AttributeError "'int' object has no attribute 'min'"
  else Ok config.

Definition generate_abs_event (config : lists)
    (event : Evdev.names * Z * Evdev.AbsInfo) : result exn lists :=
  let '(event_names, code, activator) := event in
  let event_name := first_element (Evdev.ResolvedCode event_names code) in
  Ok {| axes := axes config ++ [axis_entry event_name code activator];
        buttons := buttons config |}.

Definition generate_entry (config : lists) (entry : Evdev.cap_entry)
  : result exn lists :=
  match entry with
  | Evdev.CodeCap _ event_type_id events =>
      for_each (generate_code_event event_type_id) config events
  | Evdev.AbsCap _ events => for_each generate_abs_event config events
  end.

Definition generate (device : Evdev.InputDevice) : result exn pyval :=
  config ← for_each generate_entry {| axes := []; buttons := [] |}
             (Evdev.capabilities device);
  Ok (PDict {[ "grab" := PBool false;
               "axes" := PList (axes config);
               "buttons" := PList (buttons config) ]}).

(** *** What [generate] lists

    The events that become buttons and those that become axes, and the
    dictionary built for each. *)

Definition key_events (caps : list Evdev.cap_entry) : list (Evdev.names * Z) :=
  caps ≫= λ entry,
    match entry with
    | Evdev.CodeCap _ event_type_id events =>
        if bool_decide (event_type_id = Evdev.EV_KEY) then events else []
    | Evdev.AbsCap _ _ => []
    end.

Definition abs_events (caps : list Evdev.cap_entry)
  : list (Evdev.names * Z * Evdev.AbsInfo) :=
  caps ≫= λ entry,
    match entry with
    | Evdev.CodeCap _ _ _ => []
    | Evdev.AbsCap _ events => events
    end.

(** An entry that lists events of type [EV_ABS] without their [AbsInfo]:
    [activator.min] raises on its first event. *)
Definition abs_without_info (entry : Evdev.cap_entry) : bool :=
  match entry with
  | Evdev.CodeCap _ event_type_id events =>
      bool_decide (event_type_id = Evdev.EV_ABS)
      && negb (bool_decide (events = []))
  | Evdev.AbsCap _ _ => false
  end.

Definition button_of (event : Evdev.names * Z) : pyval :=
  button_entry (first_element (Evdev.Resolved event.1)) event.2.

Definition axis_of (event : Evdev.names * Z * Evdev.AbsInfo) : pyval :=
  axis_entry (first_element (Evdev.ResolvedCode event.1.1 event.1.2))
    event.1.2 event.2.

(** *** Paths, [save], [create] *)

Definition _get_device_config_path (device : Evdev.InputDevice) : string :=
  let config_filename := Re.sub_nonword (Evdev.name device) +:+ ".json" in
  join config_dir config_filename.

(** The [with] statement of [save] (lines 164 to 165): the file is opened
    for writing, which creates or empties it, and then the text is written.
    The state of the file system afterwards, and what the statement
    returned or raised. *)
Definition write_file (w : fs) (path text : string) : fs * result exn () :=
  match open_w w path with
  | Ok w1 => dump w1 path text
  | Err e => (w, Err e)
  end.

(** The file system after [write_file], when the statement went through. *)
Definition open_write (w : fs) (path text : string) : result exn fs :=
  match write_file w path text with
  | (w', Ok _) => Ok w'
  | (_, Err e) => Err e
  end.

(** The state of the file system after the call, and what the call
    returned or raised. *)
Definition save (w : fs) (path : string) (config : pyval)
  : fs * result exn () :=
  let made :=
    match mkdir w config_dir with
    | Ok w' => Ok w'
    | Err e => if isinstance e FileExistsError then Ok w else Err e
    end in
  match made with
  | Err e => (w, Err e)
  | Ok w1 => write_file w1 path (json_dumps config)
  end.

(** [None] on success, the error string otherwise. *)
Definition create (w : fs) (dev_path : string)
  : fs * result exn (option string) :=
  match open_device w dev_path with
  | Err e =>
      if isinstance e FileNotFoundError
      then (w, Ok (Some ("No such device " +:+ dev_path)))
      else (w, Err e)
  | Ok device =>
      let config_path := _get_device_config_path device in
      if path_exists w config_path
      then (w, Ok (Some (config_path +:+ " already exists, not overwriting")))
      else
        match generate device with
        | Err e => (w, Err e)
        | Ok config =>
            let '(w', r) := save w config_path config in
            (w', _ ← r; Ok None)
        end
  end.

(** *** [ConfigError], [read], [load] *)

Record ConfigError := {
  path : string;
  not_found : bool;
  error : string;
}.

(** [ConfigError.__str__] *)
Definition ConfigError_str (e : ConfigError) : string :=
  path e +:+ ": " +:+ error e.

Definition ConfigError_init (path : string) (reason : exn) : ConfigError :=
  if isinstance reason ValueError then
    {| path := path; not_found := false;
       error := "Invalid JSON file: " +:+ exn_str reason |}
  else if isinstance reason FileNotFoundError then
    {| path := path; not_found := true; error := "File not found" |}
  else
    {| path := path; not_found := false; error := exn_str reason |}.

Definition read (w : fs) (path : string) : result exn pyval :=
  text ← open_read w path;
  match json_loads text with
  | Some config => Ok config
  | None => raise JSONDecodeError text
  end.

(** The path [load] reads (lines 182 to 186). *)
Definition load_path (device : Evdev.InputDevice) (name : option string)
  : string :=
  if truthy name then join config_dir (basename (default "" name))
  else _get_device_config_path device.

(** What [load] raises: a [ConfigError], or an exception that the handler
    [except Exception] lets through. *)
Inductive load_error :=
| Raised (e : ConfigError)
| Uncaught (exc : exn).

(** The [try] statement of [load] (lines 187 to 193), for the path that
    was resolved. *)
Definition load_from (w : fs) (path : string)
  : result load_error (gmap key pyval) :=
  match config ← read w path; parse config with
  | Ok eventmap => Ok eventmap
  | Err exc =>
      if isinstance exc Exception then Err (Raised (ConfigError_init path exc))
      else Err (Uncaught exc)
  end.

Definition load (w : fs) (device : Evdev.InputDevice) (name : option string)
  : result load_error (gmap key pyval) :=
  load_from w (load_path device name).

End WithPlatform.

End Config.

(** ** The axis hysteresis latch of the event source *)

Module Hysteresis.

(** Modelled from the spec: the event source ([evmapy/source.py]) is not
    among the sources.  Both the latch state of an endpoint and the
    direction of a transition are one of ['up'] and ['down']. *)
Inductive updown := up | down.

(** Modelled from the spec: the two endpoints of an axis. *)
Inductive endpoint := min_endpoint | max_endpoint.

(** Modelled from the spec: the range of an axis, the [value] fields of
    its two endpoints. *)
Record axis_range := { range_min : Z; range_max : Z }.

(** Modelled from the spec: the latches of the two endpoints of one
    axis. *)
Record latches := { min_state : updown; max_state : updown }.

(** Modelled from the spec: [span = range_max - range_min]. *)
Definition span (r : axis_range) : Z := range_max r - range_min r.

(** Modelled from the spec: the event source ([evmapy/source.py]) is not
    among the sources; these are the thresholds the specification gives,
    [T_lo = range_min + 0.25 × span] and [T_hi = range_min + 0.75 × span]. *)
Definition T_lo (r : axis_range) : Q :=
  (inject_Z (range_min r) + (1 # 4) * inject_Z (span r))%Q.

(** Modelled from the spec: the upper activation threshold. *)
Definition T_hi (r : axis_range) : Q :=
  (inject_Z (range_min r) + (3 # 4) * inject_Z (span r))%Q.

(** Modelled from the spec: the event source ([evmapy/source.py]) is not
    among the sources.  The min endpoint goes down when [v < T_lo] and it
    is up, up when [v >= T_lo] and it is down, and emits nothing
    otherwise. *)
Definition step_min (r : axis_range) (v : Z) (latch : updown)
  : updown * list (endpoint * updown) :=
  match latch with
  | up =>
      if Qlt_le_dec (inject_Z v) (T_lo r)
      then (down, [(min_endpoint, down)]) else (up, [])
  | down =>
      if Qlt_le_dec (inject_Z v) (T_lo r)
      then (down, []) else (up, [(min_endpoint, up)])
  end.

(** Modelled from the spec: the event source ([evmapy/source.py]) is not
    among the sources.  The max endpoint is symmetric, with [v > T_hi] as
    the activation test and [v <= T_hi] as the deactivation test. *)
Definition step_max (r : axis_range) (v : Z) (latch : updown)
  : updown * list (endpoint * updown) :=
  match latch with
  | up =>
      if Qlt_le_dec (T_hi r) (inject_Z v)
      then (down, [(max_endpoint, down)]) else (up, [])
  | down =>
      if Qlt_le_dec (T_hi r) (inject_Z v)
      then (down, []) else (up, [(max_endpoint, up)])
  end.

(** Modelled from the spec: the event source ([evmapy/source.py]) is not
    among the sources.  One raw value of an axis runs both latches, the min
    endpoint first. *)
Definition translate (r : axis_range) (st : latches) (v : Z)
  : latches * list (endpoint * updown) :=
  let '(lo, out_min) := step_min r v (min_state st) in
  let '(hi, out_max) := step_max r v (max_state st) in
  ({| min_state := lo; max_state := hi |}, out_min ++ out_max).

(** Modelled from the spec: a batch of raw values is translated in the
    order the device reports them; what each value emitted, and the latches
    afterwards. *)
Fixpoint translate_all (r : axis_range) (st : latches) (vs : list Z)
  : latches * list (list (endpoint * updown)) :=
  match vs with
  | [] => (st, [])
  | v :: vs' =>
      let '(st1, out) := translate r st v in
      let '(st2, outs) := translate_all r st1 vs' in
      (st2, out :: outs)
  end.

End Hysteresis.

(** ** A small platform to run the functions on *)

Module Scenario.

Inductive node :=
| Dir
| File (text : string).

Record state := {
  files : gmap string node;
  devices : gmap string Evdev.InputDevice;
}.

Definition first_name (n : Evdev.names) : string :=
  match n with
  | Evdev.Name s => s
  | Evdev.Names l => hd "" l
  end.

Definition pad : Evdev.InputDevice := {|
  Evdev.name := "Foo Bar";
  Evdev.fn := "/dev/input/event0";
  Evdev.capabilities :=
    [ Evdev.CodeCap "EV_SYN" 0 [(Evdev.Name "SYN_REPORT", 0)];
      Evdev.CodeCap "EV_KEY" Evdev.EV_KEY
        [(Evdev.Names ["BTN_A"; "BTN_GAMEPAD"; "BTN_SOUTH"], 304);
         (Evdev.Name "BTN_B", 305)];
      Evdev.AbsCap "EV_ABS"
        [(Evdev.Name "ABS_X", 0,
          {| Evdev.value := 128; Evdev.min := 0; Evdev.max := 255;
             Evdev.fuzz := 0; Evdev.flat := 15; Evdev.resolution := 0 |})] ]
|}.

(** An action as a configuration file gives it, and as [parse] leaves it:
    with its id, and for the endpoint of an axis with its state. *)
Definition act (type target : string) : gmap string pyval :=
  {[ "trigger" := PStr "normal"; "type" := PStr type;
     "target" := PStr target ]}.

Definition act_id (type target : string) (id : Z) : gmap string pyval :=
  <["id" := PInt id]> (act type target).

Definition act_up (type target : string) (id : Z) : gmap string pyval :=
  <["state" := PStr "up"]> (act_id type target id).

(** Two buttons with the same action, and one axis. *)
Definition bar_config : pyval :=
  PDict {[
    "grab" := PBool false;
    "buttons" := PList [
      PDict {[ "alias" := PStr "Bar"; "code" := PInt 200;
               "press" := PDict (act "key" "KEY_ENTER") ]};
      PDict {[ "alias" := PStr "Baz"; "code" := PInt 201;
               "press" := PDict (act "key" "KEY_ENTER") ]} ];
    "axes" := PList [
      PDict {[ "alias" := PStr "Foo"; "code" := PInt 100;
               "min" := PDict (act "key" "KEY_LEFT");
               "max" := PDict (act "key" "KEY_RIGHT") ]} ]
  ]}.

Definition bar_eventmap : gmap key pyval :=
  {[ KStr "grab" := PBool false;
     KInt 200 :=
       PDict {[ "alias" := PStr "Bar"; "code" := PInt 200;
                "press" := PDict (act_id "key" "KEY_ENTER" 0) ]};
     KInt 201 :=
       PDict {[ "alias" := PStr "Baz"; "code" := PInt 201;
                "press" := PDict (act_id "key" "KEY_ENTER" 1) ]};
     KInt 100 :=
       PDict {[ "alias" := PStr "Foo"; "code" := PInt 100;
                "min" := PDict (act_up "key" "KEY_LEFT" 2);
                "max" := PDict (act_up "key" "KEY_RIGHT" 3) ]} ]}.

(** Two buttons listed under one code, and their descriptors. *)
Definition twin_config : pyval :=
  PDict {[
    "grab" := PBool false;
    "buttons" := PList [
      PDict {[ "alias" := PStr "A"; "code" := PInt 304;
               "press" := PDict (act "key" "KEY_ENTER") ]};
      PDict {[ "alias" := PStr "B"; "code" := PInt 304;
               "press" := PDict (act "key" "KEY_ESC") ]} ];
    "axes" := PList []
  ]}.

Definition twin_first : pyval :=
  PDict {[ "alias" := PStr "A"; "code" := PInt 304;
           "press" := PDict (act_id "key" "KEY_ENTER" 0) ]}.

Definition twin_second : pyval :=
  PDict {[ "alias" := PStr "B"; "code" := PInt 304;
           "press" := PDict (act_id "key" "KEY_ESC" 1) ]}.

Definition twin_eventmap : gmap key pyval :=
  {[ KStr "grab" := PBool false; KInt 304 := twin_second ]}.

(** The default configuration of [pad]. *)
Definition pad_config : pyval :=
  PDict {[
    "grab" := PBool false;
    "axes" := PList [
      PDict {[ "alias" := PStr "ABS_X"; "code" := PInt 0;
               "min" := PDict (<["value" := PInt 0]>
                                 (act "exec" "echo ABS_X min"));
               "max" := PDict (<["value" := PInt 255]>
                                 (act "exec" "echo ABS_X max")) ]} ];
    "buttons" := PList [
      PDict {[ "alias" := PStr "BTN_A"; "code" := PInt 304;
               "press" := PDict (act "exec" "echo BTN_A") ]};
      PDict {[ "alias" := PStr "BTN_B"; "code" := PInt 305;
               "press" := PDict (act "exec" "echo BTN_B") ]} ]
  ]}.

Definition pad_eventmap : gmap key pyval :=
  {[ KStr "grab" := PBool false;
     KInt 304 :=
       PDict {[ "alias" := PStr "BTN_A"; "code" := PInt 304;
                "press" := PDict (act_id "exec" "echo BTN_A" 0) ]};
     KInt 305 :=
       PDict {[ "alias" := PStr "BTN_B"; "code" := PInt 305;
                "press" := PDict (act_id "exec" "echo BTN_B" 1) ]};
     KInt 0 :=
       PDict {[ "alias" := PStr "ABS_X"; "code" := PInt 0;
                "min" := PDict (<["value" := PInt 0]>
                                  (act_up "exec" "echo ABS_X min" 2));
                "max" := PDict (<["value" := PInt 255]>
                                  (act_up "exec" "echo ABS_X max" 3)) ]} ]}.

(** A configuration whose second button has no [press] action, and that
    has no [axes]. *)
Definition no_press_config : gmap string pyval :=
  {[ "grab" := PBool false;
     "buttons" := PList [
       PDict {[ "alias" := PStr "Bar"; "code" := PInt 200;
                "press" := PDict (act "key" "KEY_ENTER") ]};
       PDict {[ "alias" := PStr "Baz"; "code" := PInt 201 ]};
       PNone ] ]}.

(** [pad] without the events that are neither keys nor axes. *)
Definition pad_plain : Evdev.InputDevice := {|
  Evdev.name := "Foo Bar";
  Evdev.fn := "/dev/input/event0";
  Evdev.capabilities :=
    [ Evdev.CodeCap "EV_KEY" Evdev.EV_KEY
        [(Evdev.Names ["BTN_A"; "BTN_GAMEPAD"; "BTN_SOUTH"], 304);
         (Evdev.Name "BTN_B", 305)];
      Evdev.AbsCap "EV_ABS"
        [(Evdev.Name "ABS_X", 0,
          {| Evdev.value := 128; Evdev.min := 0; Evdev.max := 255;
             Evdev.fuzz := 0; Evdev.flat := 15; Evdev.resolution := 0 |})] ]
|}.

(** A device whose axis is listed without its [AbsInfo]. *)
Definition bare : Evdev.InputDevice := {|
  Evdev.name := "Bare";
  Evdev.fn := "/dev/input/event1";
  Evdev.capabilities :=
    [ Evdev.CodeCap "EV_ABS" Evdev.EV_ABS [(Evdev.Name "ABS_X", 0)] ]
|}.

(** A device with a key and an axis under one code: [KEY_D] and
    [ABS_VOLUME] are both 32.  Its default configuration, and the event
    map of that. *)
Definition media : Evdev.InputDevice := {|
  Evdev.name := "Media";
  Evdev.fn := "/dev/input/event2";
  Evdev.capabilities :=
    [ Evdev.CodeCap "EV_KEY" Evdev.EV_KEY [(Evdev.Name "KEY_D", 32)];
      Evdev.AbsCap "EV_ABS"
        [(Evdev.Name "ABS_VOLUME", 32,
          {| Evdev.value := 0; Evdev.min := 0; Evdev.max := 100;
             Evdev.fuzz := 0; Evdev.flat := 0; Evdev.resolution := 0 |})] ]
|}.

Definition media_config : pyval :=
  PDict {[
    "grab" := PBool false;
    "axes" := PList [
      PDict {[ "alias" := PStr "ABS_VOLUME"; "code" := PInt 32;
               "min" := PDict (<["value" := PInt 0]>
                                 (act "exec" "echo ABS_VOLUME min"));
               "max" := PDict (<["value" := PInt 100]>
                                 (act "exec" "echo ABS_VOLUME max")) ]} ];
    "buttons" := PList [
      PDict {[ "alias" := PStr "KEY_D"; "code" := PInt 32;
               "press" := PDict (act "exec" "echo KEY_D") ]} ]
  ]}.

Definition media_eventmap : gmap key pyval :=
  {[ KStr "grab" := PBool false;
     KInt 32 :=
       PDict {[ "alias" := PStr "ABS_VOLUME"; "code" := PInt 32;
                "min" := PDict (<["value" := PInt 0]>
                                  (act_up "exec" "echo ABS_VOLUME min" 1));
                "max" := PDict (<["value" := PInt 100]>
                                  (act_up "exec" "echo ABS_VOLUME max" 2)) ]} ]}.

#[local] Open Scope string_scope.

(** A platform over [state]; with [disk_full] every write raises after
    the file was opened, which leaves the file empty. *)
Definition platform_on (disk_full : bool) : Platform := {|
  fs := state;
  config_dir := "/home/user/.evmapy";
  first_element := λ e,
    match e with
    | Evdev.Resolved n | Evdev.ResolvedCode n _ => first_name n
    end;
  json_loads := λ text,
    if bool_decide (text = "bar") then Some bar_config
    else if bool_decide (text = "{}") then Some (PDict ∅)
    else None;
  json_dumps := λ _, "{}";
  exn_str := λ e,
    match exn_cls e with
    | KeyError => "'" +:+ exn_arg e +:+ "'"
    | _ => exn_arg e
    end;
  path_exists := λ w p, bool_decide (is_Some (files w !! p));
  mkdir := λ w p,
    if bool_decide (is_Some (files w !! p)) then raise FileExistsError p
    else Ok {| files := <[p := Dir]> (files w); devices := devices w |};
  open_read := λ w p,
    match files w !! p with
    | Some (File text) => Ok text
    | Some Dir => raise IsADirectoryError p
    | None => raise FileNotFoundError p
    end;
  open_w := λ w p,
    match files w !! p with
    | Some Dir => raise IsADirectoryError p
    | _ => Ok {| files := <[p := File ""]> (files w);
                 devices := devices w |}
    end;
  dump := λ w p text,
    if disk_full then (w, raise OSError "No space left on device")
    else ({| files := <[p := File text]> (files w); devices := devices w |},
          Ok ());
  open_device := λ w p,
    match devices w !! p with
    | Some d => Ok d
    | None => raise FileNotFoundError p
    end;
|}.

#[export] Instance platform : Platform := platform_on false.

Definition full_disk : Platform := platform_on true.

Definition world : state := {|
  files := {[ "/home/user/.evmapy" := Dir;
              "/home/user/.evmapy/bar.json" := File "bar";
              "/home/user/.evmapy/broken.json" := File "{";
              "/home/user/.evmapy/empty.json" := File "{}" ]};
  devices := {[ "/dev/input/event0" := pad ]};
|}.

(** The file system of [world], with the device [bare] beside [pad]. *)
Definition world_with_bare : state := {|
  files := files world;
  devices := <["/dev/input/event1" := bare]> (devices world);
|}.

(** [world] after [create] opened the default configuration of [pad] for
    writing and the write raised. *)
Definition world_with_empty_default : state := {|
  files := <["/home/user/.evmapy/Foo.Bar.json" := File ""]> (files world);
  devices := devices world;
|}.

(** [world] after [create] wrote the default configuration of [pad]. *)
Definition world_with_default : state := {|
  files := <["/home/user/.evmapy/Foo.Bar.json" := File "{}"]> (files world);
  devices := devices world;
|}.

End Scenario.

(** * Properties *)

(** ** Strings and paths *)

Lemma string_app_nil_l (s : string) : "" +:+ s = s.
Proof. reflexivity. Qed.

Lemma string_app_cons c (s t : string) :
  String c s +:+ t = String c (s +:+ t).
Proof. reflexivity. Qed.

(** Unfolds an append whose left operand starts with known characters. *)
Ltac string_app := rewrite ?string_app_cons, ?string_app_nil_l.

Lemma string_app_nil_r (s : string) : s +:+ "" = s.
Proof. induction s as [|c s IH]; string_app; [done | by rewrite IH]. Qed.

Lemma string_app_assoc (a b c : string) : (a +:+ b) +:+ c = a +:+ (b +:+ c).
Proof. induction a as [|x a IH]; string_app; [done | by rewrite IH]. Qed.

Section Paths.
Import PosixPath.

Lemma rfind_sep_lower p : -1 ≤ rfind_sep p.
Proof.
  induction p as [|c r IH]; simpl; [lia |].
  destruct (0 <=? rfind_sep r) eqn:E; [lia |].
  destruct (Ascii.eqb c sep); lia.
Qed.

Lemma rfind_sep_has_sep p : (0 <=? rfind_sep p) = has_sep p.
Proof.
  induction p as [|c r IH]; simpl; [done |].
  rewrite <- IH. destruct (0 <=? rfind_sep r) eqn:E.
  - rewrite orb_true_r. apply Z.leb_le. apply Z.leb_le in E. lia.
  - rewrite orb_false_r. by destruct (Ascii.eqb c sep).
Qed.

(** [basename] keeps what follows the last separator. *)
Lemma basename_cons c r :
  basename (String c r) =
    if has_sep r then basename r
    else if Ascii.eqb c sep then r else String c r.
Proof.
  unfold basename. simpl rfind_sep.
  rewrite <- (rfind_sep_has_sep r).
  pose proof (rfind_sep_lower r) as Hlo.
  destruct (0 <=? rfind_sep r) eqn:E.
  - apply Z.leb_le in E.
    replace (Z.to_nat (rfind_sep r + 1 + 1))
      with (S (Z.to_nat (rfind_sep r + 1))) by lia.
    done.
  - apply Z.leb_gt in E.
    replace (rfind_sep r) with (-1) by lia.
    by destruct (Ascii.eqb c sep).
Qed.

Lemma basename_no_sep p : has_sep (basename p) = false.
Proof.
  induction p as [|c r IH]; [done |].
  rewrite basename_cons.
  destruct (has_sep r) eqn:Er; [done |].
  destruct (Ascii.eqb c sep) eqn:Ec; [done |].
  simpl. by rewrite Ec, Er.
Qed.

Lemma basename_without_sep p : has_sep p = false → basename p = p.
Proof.
  destruct p as [|c r]; [done |]. simpl. intros [Ec Er]%orb_false_iff.
  by rewrite basename_cons, Er, Ec.
Qed.

Lemma has_sep_app a b : has_sep (a +:+ b) = has_sep a || has_sep b.
Proof.
  induction a as [|c a IH]; string_app; simpl; [done |].
  by rewrite IH, orb_assoc.
Qed.

Lemma basename_after_sep a b :
  has_sep b = false → basename (a +:+ String sep b) = b.
Proof.
  intros Hb. induction a as [|c a IH]; string_app.
  - rewrite basename_cons, Hb. done.
  - rewrite basename_cons, has_sep_app. simpl.
    by rewrite orb_true_r.
Qed.

Lemma startswith_no_sep b : has_sep b = false → startswith_sep b = false.
Proof. destruct b; simpl; [done |]. by intros [? ?]%orb_false_iff. Qed.

Lemma join_no_sep d b : has_sep b = false → join d b = dir_prefix d +:+ b.
Proof.
  intros Hb. unfold join, dir_prefix.
  rewrite (startswith_no_sep _ Hb).
  destruct (bool_decide (d = "") || endswith_sep d); [done |].
  by rewrite string_app_assoc.
Qed.

Lemma strip_prefix_app pre s : strip_prefix pre (pre +:+ s) = Some s.
Proof.
  induction pre as [|c pre IH]; string_app; simpl; [by destruct s |].
  by rewrite Ascii.eqb_refl.
Qed.

Lemma components_from_no_sep cur b :
  has_sep b = false → components_from cur b = [cur +:+ b].
Proof.
  revert cur. induction b as [|c b IH]; simpl; intros cur Hb.
  - by rewrite string_app_nil_r.
  - apply orb_false_iff in Hb as [Ec Hb]. rewrite Ec, IH by done.
    by rewrite string_app_assoc; string_app.
Qed.

(** A single component other than [..], appended to a directory, is inside
    that directory. *)
Lemma inside_dir_leaf d b :
  has_sep b = false → b ≠ ".." →
  inside_dir d (dir_prefix d +:+ b) = true.
Proof.
  intros Hb Hdots. unfold inside_dir, components.
  rewrite strip_prefix_app, (startswith_no_sep _ Hb), orb_true_r.
  rewrite components_from_no_sep by done. string_app. simpl.
  rewrite bool_decide_eq_false_2 by done.
  by destruct (bool_decide (b = "") || bool_decide (b = ".")).
Qed.

Lemma is_word_not_sep c : Re.is_word c = true → Ascii.eqb c sep = false.
Proof.
  intros Hw. destruct (Ascii.eqb_spec c sep) as [-> |]; [| done].
  by vm_compute in Hw.
Qed.

Lemma sub_nonword_no_sep s : has_sep (Re.sub_nonword s) = false.
Proof.
  induction s as [|c s IH]; simpl; [done |]. rewrite IH, orb_false_r.
  destruct (Re.is_word c) eqn:Hw; [by apply is_word_not_sep | done].
Qed.

Lemma sub_nonword_get s i :
  String.get i (Re.sub_nonword s) =
    (λ c, if Re.is_word c then c else "."%char) <$> String.get i s.
Proof.
  revert i. induction s as [|c s IH]; intros i; simpl; [done |].
  destruct i; [done | apply IH].
Qed.

Lemma sub_nonword_length s :
  String.length (Re.sub_nonword s) = String.length s.
Proof. induction s as [|c s IH]; simpl; [done | by rewrite IH]. Qed.

Lemma app_json_not_dotdot s : s +:+ ".json" ≠ "..".
Proof.
  destruct s as [|a [|b [|c s]]]; string_app; discriminate.
Qed.

End Paths.

(** ** The path [load] reads *)

Section LoadPaths.
Context {P : Platform}.
Import PosixPath Config.

(** C1, as amended.  For a non-empty name, [load] reads the configuration
    directory joined with the basename of the name.  The basename holds no
    separator, so the path is the directory followed by one component; a
    name [dir/leaf] is not rejected: it is the request for [leaf].  The path
    is inside the configuration directory unless that component is [..]. *)
Theorem load_named_resolves_basename
    (w : fs) (device : Evdev.InputDevice) (name : string) :
  name ≠ "" →
  load_path device (Some name) = join config_dir (basename name)
  ∧ load w device (Some name) = load_from w (join config_dir (basename name))
  ∧ has_sep (basename name) = false
  ∧ join config_dir (basename name) = dir_prefix config_dir +:+ basename name
  ∧ (∀ dir leaf, name = dir +:+ String sep leaf → has_sep leaf = false →
       load_path device (Some name) = join config_dir leaf)
  ∧ (basename name ≠ ".." →
       inside_dir config_dir (load_path device (Some name)) = true).
Proof.
  intros Hname.
  assert (load_path device (Some name) = join config_dir (basename name))
    as Hpath.
  { unfold load_path. simpl. by rewrite bool_decide_eq_false_2. }
  pose proof (basename_no_sep name) as Hleaf.
  split_and!; [done | by unfold load; rewrite Hpath | done | | |].
  - by apply join_no_sep.
  - intros dir leaf -> Hl. by rewrite Hpath, basename_after_sep.
  - intros Hdots. rewrite Hpath, join_no_sep by done.
    by apply inside_dir_leaf.
Qed.

(** C5.  With no name, or an empty one, [load] reads the default
    configuration of the device: the configuration directory joined with
    the name of the device, each character that is not a word character
    replaced by a dot, followed by [.json].  The path depends on the device
    through its name only. *)
Theorem load_default_path (w : fs) (device : Evdev.InputDevice) :
  let filename := Re.sub_nonword (Evdev.name device) +:+ ".json" in
  load_path device None = join config_dir filename
  ∧ load_path device (Some "") = join config_dir filename
  ∧ load w device None = load_from w (join config_dir filename)
  ∧ load w device (Some "") = load_from w (join config_dir filename)
  ∧ String.length (Re.sub_nonword (Evdev.name device))
      = String.length (Evdev.name device)
  ∧ (∀ i, String.get i (Re.sub_nonword (Evdev.name device)) =
            (λ c, if Re.is_word c then c else "."%char)
              <$> String.get i (Evdev.name device))
  ∧ join config_dir filename = dir_prefix config_dir +:+ filename
  ∧ inside_dir config_dir (load_path device None) = true
  ∧ (∀ device', Evdev.name device' = Evdev.name device →
       load_path device' None = load_path device None).
Proof.
  intros filename.
  assert (has_sep filename = false) as Hf.
  { unfold filename. by rewrite has_sep_app, sub_nonword_no_sep. }
  split_and!; try done.
  - apply sub_nonword_length.
  - apply sub_nonword_get.
  - by apply join_no_sep.
  - unfold load_path, _get_device_config_path. simpl.
    fold filename. rewrite join_no_sep by done.
    apply inside_dir_leaf; [done | apply app_json_not_dotdot].
  - intros device' Hn. unfold load_path, _get_device_config_path. simpl.
    by rewrite Hn.
Qed.

End LoadPaths.

(** ** The errors [load] raises *)

Section LoadErrors.
Context {P : Platform}.
Import Config.

Lemma isinstance_Exception exc : isinstance exc Exception = true.
Proof. destruct exc as [c a]. by destruct c. Qed.

Lemma not_value_and_not_found exc :
  isinstance exc ValueError = true →
  isinstance exc FileNotFoundError = false.
Proof. destruct exc as [c a]. by destruct c. Qed.

Lemma ConfigError_init_path p exc : path (ConfigError_init p exc) = p.
Proof.
  unfold ConfigError_init.
  by destruct (isinstance exc ValueError), (isinstance exc FileNotFoundError).
Qed.

(** C3.  [load] returns the event map when reading and parsing succeed.
    When either raises [exc], [load] raises a [ConfigError] and no other
    exception; the error holds the resolved path, its [not_found] flag is
    set exactly for a [FileNotFoundError], a [ValueError] is reported as
    [Invalid JSON file: ] followed by its string form, and an exception of
    neither class by its string form alone. *)
Theorem load_raises_ConfigError
    (w : fs) (device : Evdev.InputDevice) (name : option string) :
  match config ← read w (load_path device name); parse config with
  | Ok eventmap => load w device name = Ok eventmap
  | Err exc =>
      ∃ e, load w device name = Err (Raised e)
        ∧ e = ConfigError_init (load_path device name) exc
        ∧ path e = load_path device name
        ∧ (not_found e = true ↔ isinstance exc FileNotFoundError = true)
        ∧ (isinstance exc ValueError = true →
             error e = "Invalid JSON file: " +:+ exn_str exc)
        ∧ (isinstance exc FileNotFoundError = true →
             error e = "File not found")
        ∧ (isinstance exc ValueError = false →
           isinstance exc FileNotFoundError = false →
             error e = exn_str exc)
  end.
Proof.
  unfold load, load_from.
  destruct (config ← read w (load_path device name); parse config)
    as [eventmap | exc]; [done |].
  rewrite isinstance_Exception.
  exists (ConfigError_init (load_path device name) exc).
  split_and!; try done.
  - apply ConfigError_init_path.
  - unfold ConfigError_init.
    destruct (isinstance exc ValueError) eqn:Ev.
    + rewrite (not_value_and_not_found _ Ev). done.
    + by destruct (isinstance exc FileNotFoundError).
  - intros Ev. unfold ConfigError_init. by rewrite Ev.
  - intros Ef. unfold ConfigError_init.
    destruct (isinstance exc ValueError) eqn:Ev.
    + rewrite (not_value_and_not_found _ Ev) in Ef. done.
    + by rewrite Ef.
  - intros Ev Ef. unfold ConfigError_init. by rewrite Ev, Ef.
Qed.

(** [load] never lets an exception of [read] or [parse] through. *)
Lemma load_not_uncaught
    (w : fs) (device : Evdev.InputDevice) (name : option string) exc :
  load w device name ≠ Err (Uncaught exc).
Proof.
  unfold load, load_from.
  destruct (config ← read w (load_path device name); parse config);
    [done |].
  by rewrite isinstance_Exception.
Qed.

(** A text that is not JSON is a [ValueError]. *)
Lemma read_malformed (w : fs) p text :
  open_read w p = Ok text → json_loads text = None →
  read w p = Err (Exn JSONDecodeError text)
  ∧ isinstance (Exn JSONDecodeError text) ValueError = true.
Proof. intros Ho Hj. unfold read. rewrite Ho. simpl. by rewrite Hj. Qed.

End LoadErrors.

(** ** The loops of [parse] *)

(** Reduces the binds of the error monad on known outcomes. *)
Ltac run :=
  repeat progress
    (simpl; unfold mbind, result_bind, mret, result_ret, raise).
Tactic Notation "run" "in" hyp(H) :=
  repeat progress
    (simpl in H; unfold mbind, result_bind, mret, result_ret, raise in H).

Lemma bind_Ok {A B} (m : result exn A) (f : A → result exn B) (b : B) :
  (x ← m; f x) = Ok b → ∃ a, m = Ok a ∧ f a = Ok b.
Proof. destruct m as [a|e]; run; [by exists a | done]. Qed.

Section Parse.
Import Config.

Lemma setitem2_inv v k1 k2 x v' :
  setitem2 v k1 k2 x = Ok v' →
  ∃ d a, v = PDict d ∧ d !! k1 = Some (PDict a)
    ∧ v' = PDict (<[k1 := PDict (<[k2 := x]> a)]> d).
Proof.
  unfold setitem2. destruct v as [| | | | |d]; run; try done.
  destruct (d !! k1) as [[| | | | |a]|] eqn:Hk; run; try done.
  intros [= <-]. by exists d, a.
Qed.

Lemma setitem2_ok d a k1 k2 x :
  d !! k1 = Some (PDict a) →
  setitem2 (PDict d) k1 k2 x = Ok (PDict (<[k1 := PDict (<[k2 := x]> a)]> d)).
Proof. intros Hk. unfold setitem2. run. by rewrite Hk. Qed.

Lemma mark_button_inv i b b' :
  mark_button i b = Ok b' →
  ∃ d pd, b = PDict d ∧ d !! "press" = Some (PDict pd)
    ∧ b' = PDict (<["press" := PDict (<["id" := PInt i]> pd)]> d).
Proof. apply setitem2_inv. Qed.

Lemma mark_button_ok i d pd :
  d !! "press" = Some (PDict pd) →
  mark_button i (PDict d)
    = Ok (PDict (<["press" := PDict (<["id" := PInt i]> pd)]> d)).
Proof. apply setitem2_ok. Qed.

Lemma mark_axis_ok i d mn mx :
  d !! "min" = Some (PDict mn) → d !! "max" = Some (PDict mx) →
  mark_axis i (PDict d)
    = Ok (PDict (<["max" := marked_limit (i + 1) mx]>
                   (<["min" := marked_limit i mn]> d))).
Proof.
  intros Hmn Hmx. unfold mark_axis, marked_limit.
  rewrite (setitem2_ok _ _ _ _ _ Hmn). run.
  erewrite setitem2_ok by apply lookup_insert_eq. run.
  rewrite insert_insert_eq.
  erewrite setitem2_ok by (rewrite lookup_insert_ne by done; apply Hmx). run.
  erewrite setitem2_ok by apply lookup_insert_eq.
  by rewrite insert_insert_eq.
Qed.

Lemma mark_axis_inv i a a' :
  mark_axis i a = Ok a' →
  ∃ d mn mx, a = PDict d ∧ d !! "min" = Some (PDict mn)
    ∧ d !! "max" = Some (PDict mx)
    ∧ a' = PDict (<["max" := marked_limit (i + 1) mx]>
                    (<["min" := marked_limit i mn]> d)).
Proof.
  intros Hm. pose proof Hm as Hm'. unfold mark_axis in Hm'.
  apply bind_Ok in Hm' as (a1 & H1 & Hm').
  apply bind_Ok in Hm' as (a2 & H2 & Hm').
  apply bind_Ok in Hm' as (a3 & H3 & _).
  apply setitem2_inv in H1 as (d & mn & -> & Hmn & ->).
  apply setitem2_inv in H2 as (d2 & mn2 & [= <-] & _ & ->).
  apply setitem2_inv in H3 as (d3 & mx & [= <-] & Hmx & _).
  rewrite !lookup_insert_ne in Hmx by done.
  rewrite (mark_axis_ok _ _ _ _ Hmn Hmx) in Hm. injection Hm as <-.
  by exists d, mn, mx.
Qed.

(** The two turns of the loop over [('min', 'max')]. *)
Lemma for_each_parse_limit i a :
  for_each parse_limit (i, a) ["min"; "max"]
    = a' ← mark_axis i a; Ok (i + 2, a').
Proof.
  unfold mark_axis. run.
  destruct (setitem2 a "min" "id" (PInt i)) as [a1|]; run; [| done].
  destruct (setitem2 a1 "min" "state" (PStr "up")) as [a2|]; run; [| done].
  destruct (setitem2 a2 "max" "id" (PInt (i + 1))) as [a3|]; run; [| done].
  destruct (setitem2 a3 "max" "state" (PStr "up")) as [a4|]; run; [| done].
  do 2 f_equal. lia.
Qed.

Lemma parse_button_eq i (em : gmap key pyval) b :
  parse_button (i, em) b
    = b' ← mark_button i b; k ← entry_key b'; Ok (i + 1, <[k := b']> em).
Proof.
  unfold parse_button, mark_button, entry_key.
  destruct (setitem2 b "press" "id" (PInt i)) as [b'|]; run; [| done].
  destruct (getitem b' "code") as [code|]; run; [| done].
  by destruct (hash code).
Qed.

Lemma parse_axis_eq i (em : gmap key pyval) a :
  parse_axis (i, em) a
    = a' ← mark_axis i a; k ← entry_key a'; Ok (i + 2, <[k := a']> em).
Proof.
  unfold parse_axis. rewrite for_each_parse_limit. unfold entry_key.
  destruct (mark_axis i a) as [a'|]; run; [| done].
  destruct (getitem a' "code") as [code|]; run; [| done].
  by destruct (hash code).
Qed.

Lemma for_each_cons {S A} (body : S → A → result exn S) st a l :
  for_each body st (a :: l) = st' ← body st a; for_each body st' l.
Proof. reflexivity. Qed.

Lemma for_each_parse_button l i (em : gmap key pyval) :
  for_each parse_button (i, em) l
    = bs ← marked_buttons i l;
      Ok (i + Z.of_nat (length l), store_all bs em).
Proof.
  revert i em. induction l as [|b l IH]; intros i em.
  - run. by rewrite Z.add_0_r.
  - rewrite for_each_cons, parse_button_eq. simpl marked_buttons.
    destruct (mark_button i b) as [b'|]; run; [| done].
    destruct (entry_key b') as [k|]; run; [| done].
    rewrite IH. destruct (marked_buttons (i + 1) l); run; [| done].
    do 2 f_equal. lia.
Qed.

Lemma for_each_parse_axis l i (em : gmap key pyval) :
  for_each parse_axis (i, em) l
    = axs ← marked_axes i l;
      Ok (i + 2 * Z.of_nat (length l), store_all axs em).
Proof.
  revert i em. induction l as [|a l IH]; intros i em.
  - run. by rewrite Z.add_0_r.
  - rewrite for_each_cons, parse_axis_eq. simpl marked_axes.
    destruct (mark_axis i a) as [a'|]; run; [| done].
    destruct (entry_key a') as [k|]; run; [| done].
    rewrite IH. destruct (marked_axes (i + 2) l); run; [| done].
    do 2 f_equal. lia.
Qed.

Lemma store_all_app l1 l2 (em : gmap key pyval) :
  store_all (l1 ++ l2) em = store_all l2 (store_all l1 em).
Proof. apply foldl_app. Qed.

(** [parse] stores the grab flag, then the descriptors of the buttons,
    then those of the axes. *)
Lemma parse_unfold config :
  parse config =
    grab ← getitem config "grab";
    ds ← descriptors config;
    Ok (store_all (ds.1 ++ ds.2) (<[KStr "grab" := grab]> ∅)).
Proof.
  unfold parse, descriptors, listed.
  destruct (getitem config "grab") as [grab|]; run; [| done].
  destruct (getitem config "buttons") as [buttons|]; run; [| done].
  destruct (iter buttons) as [bl|]; run; [| done].
  rewrite for_each_parse_button.
  destruct (marked_buttons 0 bl) as [bs|]; run; [| done].
  destruct (getitem config "axes") as [axes|]; run; [| done].
  destruct (iter axes) as [al|]; run; [| done].
  rewrite for_each_parse_axis.
  destruct (marked_axes _ al) as [axs|]; run; [| done].
  by rewrite store_all_app.
Qed.

Lemma parse_inv config eventmap :
  parse config = Ok eventmap →
  ∃ grab bs axs,
    getitem config "grab" = Ok grab
    ∧ descriptors config = Ok (bs, axs)
    ∧ eventmap = store_all (bs ++ axs) (<[KStr "grab" := grab]> ∅).
Proof.
  rewrite parse_unfold. intros Hp.
  apply bind_Ok in Hp as (grab & Hg & Hp).
  apply bind_Ok in Hp as ([bs axs] & Hd & Hp).
  injection Hp as <-. by exists grab, bs, axs.
Qed.

End Parse.

(** ** The descriptors [parse] stores *)

Section Descriptors.
Import Config.

Lemma marked_buttons_inv l i bs :
  marked_buttons i l = Ok bs →
  length bs = length l
  ∧ ∀ n b, l !! n = Some b →
      ∃ k b', bs !! n = Some (k, b')
        ∧ mark_button (i + Z.of_nat n) b = Ok b' ∧ entry_key b' = Ok k.
Proof.
  revert i bs. induction l as [|b l IH]; intros i bs Hm.
  - injection Hm as <-. split; [done | by intros n b' Hn].
  - simpl in Hm.
    apply bind_Ok in Hm as (b' & Hb & Hm).
    apply bind_Ok in Hm as (k & Hk & Hm).
    apply bind_Ok in Hm as (rest & Hr & Hm).
    injection Hm as <-. apply IH in Hr as [Hlen Hrest].
    split; [simpl; by rewrite Hlen |].
    intros [|n] c Hn; simpl in Hn.
    + injection Hn as <-. exists k, b'. by rewrite Z.add_0_r.
    + destruct (Hrest n c Hn) as (k' & c' & ? & Hc & ?).
      exists k', c'. split_and!; [done | | done].
      rewrite <- Hc. f_equal. lia.
Qed.

Lemma marked_axes_inv l i axs :
  marked_axes i l = Ok axs →
  length axs = length l
  ∧ ∀ n a, l !! n = Some a →
      ∃ k a', axs !! n = Some (k, a')
        ∧ mark_axis (i + 2 * Z.of_nat n) a = Ok a' ∧ entry_key a' = Ok k.
Proof.
  revert i axs. induction l as [|a l IH]; intros i axs Hm.
  - injection Hm as <-. split; [done | by intros n b' Hn].
  - simpl in Hm.
    apply bind_Ok in Hm as (a' & Ha & Hm).
    apply bind_Ok in Hm as (k & Hk & Hm).
    apply bind_Ok in Hm as (rest & Hr & Hm).
    injection Hm as <-. apply IH in Hr as [Hlen Hrest].
    split; [simpl; by rewrite Hlen |].
    intros [|n] c Hn; simpl in Hn.
    + injection Hn as <-. exists k, a'. by rewrite Z.add_0_r.
    + destruct (Hrest n c Hn) as (k' & c' & ? & Hc & ?).
      exists k', c'. split_and!; [done | | done].
      rewrite <- Hc. f_equal. lia.
Qed.

(** What the marked actions hold. *)
Lemma mark_button_id i b b' :
  mark_button i b = Ok b' → action_field b' "press" "id" = Some (PInt i).
Proof.
  intros (d & pd & -> & _ & ->)%mark_button_inv.
  unfold action_field. simpl. rewrite lookup_insert_eq. simpl.
  by rewrite lookup_insert_eq.
Qed.

Lemma mark_button_frame i b b' :
  mark_button i b = Ok b' →
  (∀ slot, slot ≠ "press" → field b' slot = field b slot)
  ∧ (∀ f, f ≠ "id" → action_field b' "press" f = action_field b "press" f).
Proof.
  intros (d & pd & -> & Hp & ->)%mark_button_inv. split.
  - intros slot Hs. simpl. by rewrite lookup_insert_ne.
  - intros f Hf. unfold action_field. simpl.
    rewrite lookup_insert_eq, Hp. simpl. by rewrite lookup_insert_ne.
Qed.

Lemma mark_axis_fields i a a' :
  mark_axis i a = Ok a' →
  action_field a' "min" "id" = Some (PInt i)
  ∧ action_field a' "max" "id" = Some (PInt (i + 1))
  ∧ action_field a' "min" "state" = Some (PStr "up")
  ∧ action_field a' "max" "state" = Some (PStr "up").
Proof.
  intros (d & mn & mx & -> & _ & _ & ->)%mark_axis_inv.
  unfold action_field, marked_limit. simpl.
  rewrite lookup_insert_eq, lookup_insert_ne, lookup_insert_eq by done.
  simpl. rewrite !lookup_insert_eq.
  rewrite !(lookup_insert_ne _ "state" "id") by done.
  by rewrite !lookup_insert_eq.
Qed.

Lemma mark_axis_frame i a a' :
  mark_axis i a = Ok a' →
  ∀ slot, slot ≠ "min" → slot ≠ "max" → field a' slot = field a slot.
Proof.
  intros (d & mn & mx & -> & _ & _ & ->)%mark_axis_inv slot H1 H2.
  simpl. by rewrite !lookup_insert_ne.
Qed.

(** The ids, in the order of the assignments, count up from the first. *)
Lemma marked_buttons_ids l i bs :
  marked_buttons i l = Ok bs →
  action_id <$> allocated bs []
    = (λ n, Some (PInt n)) <$> seqZ i (Z.of_nat (length l)).
Proof.
  revert i bs. induction l as [|b l IH]; intros i bs Hm.
  - by injection Hm as <-.
  - simpl in Hm.
    apply bind_Ok in Hm as (b' & Hb & Hm).
    apply bind_Ok in Hm as (k & Hk & Hm).
    apply bind_Ok in Hm as (rest & Hr & Hm).
    injection Hm as <-. apply IH in Hr.
    rewrite seqZ_cons by (simpl; lia).
    replace (Z.pred (Z.of_nat (length (b :: l)))) with (Z.of_nat (length l))
      by (simpl; lia).
    unfold allocated in *. simpl in *. rewrite app_nil_r in *.
    replace (Z.succ i) with (i + 1) by lia.
    f_equal; [| done].
    unfold action_id. simpl. by eapply mark_button_id.
Qed.

Lemma marked_axes_ids l i axs :
  marked_axes i l = Ok axs →
  action_id <$> allocated [] axs
    = (λ n, Some (PInt n)) <$> seqZ i (2 * Z.of_nat (length l)).
Proof.
  revert i axs. induction l as [|a l IH]; intros i axs Hm.
  - by injection Hm as <-.
  - simpl in Hm.
    apply bind_Ok in Hm as (a' & Ha & Hm).
    apply bind_Ok in Hm as (k & Hk & Hm).
    apply bind_Ok in Hm as (rest & Hr & Hm).
    injection Hm as <-. apply IH in Hr.
    rewrite seqZ_cons by (simpl; lia).
    rewrite (seqZ_cons (Z.succ i)) by (simpl; lia).
    replace (Z.pred (Z.pred (2 * Z.of_nat (length (a :: l)))))
      with (2 * Z.of_nat (length l)) by (simpl; lia).
    replace (Z.succ (Z.succ i)) with (i + 2) by lia.
    unfold allocated in *. simpl in *.
    destruct (mark_axis_fields _ _ _ Ha) as (Hmin & Hmax & _).
    unfold action_id at 1 2. simpl.
    rewrite Hmin, Hmax. replace (Z.succ i) with (i + 1) by lia.
    do 2 f_equal. apply Hr.
Qed.

Lemma allocated_split bs axs :
  allocated bs axs = allocated bs [] ++ allocated [] axs.
Proof. unfold allocated. simpl. by rewrite app_nil_r. Qed.

Lemma allocated_length bs axs :
  length (allocated bs axs) = (length bs + 2 * length axs)%nat.
Proof.
  unfold allocated. rewrite length_app, length_fmap. f_equal.
  induction axs as [|a axs IH]; [done |].
  rewrite bind_cons, length_app, IH. simpl. lia.
Qed.

(** The descriptors of a configuration, unfolded. *)
Lemma descriptors_inv config bs axs :
  descriptors config = Ok (bs, axs) →
  ∃ bl al,
    listed config "buttons" = Ok bl ∧ listed config "axes" = Ok al
    ∧ marked_buttons 0 bl = Ok bs
    ∧ marked_axes (Z.of_nat (length bl)) al = Ok axs.
Proof.
  unfold descriptors. intros Hd.
  apply bind_Ok in Hd as (bl & Hbl & Hd).
  apply bind_Ok in Hd as (bs' & Hbs & Hd).
  apply bind_Ok in Hd as (al & Hal & Hd).
  apply bind_Ok in Hd as (axs' & Haxs & Hd).
  injection Hd as <- <-. by exists bl, al.
Qed.

Lemma descriptors_ids config bs axs bl al :
  listed config "buttons" = Ok bl → listed config "axes" = Ok al →
  descriptors config = Ok (bs, axs) →
  action_id <$> allocated bs axs
    = (λ n, Some (PInt n))
        <$> seqZ 0 (Z.of_nat (length bl) + 2 * Z.of_nat (length al)).
Proof.
  intros Hbl Hal (bl' & al' & Hbl' & Hal' & Hbs & Haxs)%descriptors_inv.
  rewrite Hbl in Hbl'. rewrite Hal in Hal'.
  injection Hbl' as <-. injection Hal' as <-.
  rewrite allocated_split, fmap_app.
  rewrite (marked_buttons_ids _ _ _ Hbs), (marked_axes_ids _ _ _ Haxs).
  rewrite seqZ_app by lia. by rewrite fmap_app, Z.add_0_l.
Qed.

Lemma ids_NoDup i n : NoDup ((λ n, Some (PInt n)) <$> seqZ i n).
Proof.
  apply NoDup_fmap_2; [| apply NoDup_seqZ].
  by intros x y [= ->].
Qed.

(** Storing a list of items, in order. *)
Lemma store_all_lookup items (em : gmap key pyval) k e :
  store_all items em !! k = Some e → (k, e) ∈ items ∨ em !! k = Some e.
Proof.
  revert em. induction items as [|[k' e'] items IH]; intros em Hl.
  - by right.
  - apply IH in Hl as [Hin | Hl]; [left; by right |].
    simpl in Hl. destruct (decide (k' = k)) as [-> | Hne].
    + rewrite lookup_insert_eq in Hl. injection Hl as ->. left. by left.
    + rewrite lookup_insert_ne in Hl by done. by right.
Qed.

Lemma store_all_lookup_notin items (em : gmap key pyval) k :
  k ∉ items.*1 → store_all items em !! k = em !! k.
Proof.
  revert em. induction items as [|[k' e'] items IH]; intros em Hn; [done |].
  simpl in *. apply not_elem_of_cons in Hn as [Hne Hn].
  unfold store_all in *. simpl. rewrite IH by done.
  by rewrite lookup_insert_ne.
Qed.

Lemma store_all_last l1 k e l2 (em : gmap key pyval) :
  k ∉ l2.*1 → store_all (l1 ++ (k, e) :: l2) em !! k = Some e.
Proof.
  intros Hn. rewrite store_all_app. unfold store_all at 1. simpl.
  fold (store_all l2 (<[k := e]> (store_all l1 em))).
  rewrite store_all_lookup_notin by done. apply lookup_insert_eq.
Qed.

Lemma store_all_dom items (em : gmap key pyval) :
  dom (store_all items em) = dom em ∪ list_to_set items.*1.
Proof.
  revert em. induction items as [|[k e] items IH]; intros em.
  - unfold store_all. simpl. set_solver.
  - unfold store_all in *. simpl. rewrite IH, dom_insert_L. set_solver.
Qed.

Lemma store_all_NoDup items (em : gmap key pyval) k e :
  NoDup items.*1 → (k, e) ∈ items → store_all items em !! k = Some e.
Proof.
  intros Hnd (l1 & l2 & ->)%list_elem_of_split.
  apply store_all_last.
  rewrite fmap_app, fmap_cons in Hnd. simpl in Hnd.
  apply NoDup_app in Hnd as (_ & _ & Hnd).
  by apply NoDup_cons in Hnd as [? _].
Qed.

Lemma marked_buttons_keys l i bs k e :
  marked_buttons i l = Ok bs → (k, e) ∈ bs → entry_key e = Ok k.
Proof.
  intros Hm (n & Hn)%list_elem_of_lookup.
  destruct (marked_buttons_inv _ _ _ Hm) as [Hlen Hall].
  destruct (lookup_lt_is_Some_2 l n) as [b Hb].
  { rewrite <- Hlen. by eapply lookup_lt_Some. }
  destruct (Hall n b Hb) as (k' & b' & Hn' & _ & Hk).
  rewrite Hn in Hn'. by injection Hn' as -> ->.
Qed.

Lemma marked_axes_keys l i axs k e :
  marked_axes i l = Ok axs → (k, e) ∈ axs → entry_key e = Ok k.
Proof.
  intros Hm (n & Hn)%list_elem_of_lookup.
  destruct (marked_axes_inv _ _ _ Hm) as [Hlen Hall].
  destruct (lookup_lt_is_Some_2 l n) as [b Hb].
  { rewrite <- Hlen. by eapply lookup_lt_Some. }
  destruct (Hall n b Hb) as (k' & b' & Hn' & _ & Hk).
  rewrite Hn in Hn'. by injection Hn' as -> ->.
Qed.

End Descriptors.

(** ** The event map [parse] returns *)

Section EventMap.
Import Config.

(** C2.  When [parse] returns an event map, the ids it has given to the
    press action of each listed button and to the min and max action of
    each listed axis are, in the order buttons first and then each axis
    with min before max, the integers counted up from 0, so no two of these
    actions hold the same id, whatever their other fields; and each entry
    of the event map other than the grab flag is one of these descriptors. *)
Theorem parse_ids_unique (config : pyval) (eventmap : gmap key pyval) :
  parse config = Ok eventmap →
  ∃ bl al bs axs,
    listed config "buttons" = Ok bl
    ∧ listed config "axes" = Ok al
    ∧ descriptors config = Ok (bs, axs)
    ∧ length bs = length bl ∧ length axs = length al
    ∧ action_id <$> allocated bs axs
        = (λ n, Some (PInt n))
            <$> seqZ 0 (Z.of_nat (length bl) + 2 * Z.of_nat (length al))
    ∧ (∀ n k b, bs !! n = Some (k, b) →
         action_field b "press" "id" = Some (PInt (Z.of_nat n)))
    ∧ (∀ n k a, axs !! n = Some (k, a) →
         action_field a "min" "id"
           = Some (PInt (Z.of_nat (length bl) + 2 * Z.of_nat n))
         ∧ action_field a "max" "id"
           = Some (PInt (Z.of_nat (length bl) + 2 * Z.of_nat n + 1)))
    ∧ NoDup (action_id <$> allocated bs axs)
    ∧ (∀ p q a a', allocated bs axs !! p = Some a →
         allocated bs axs !! q = Some a' →
         action_id a = action_id a' → p = q)
    ∧ (∀ k e, eventmap !! k = Some e →
         (k, e) ∈ bs ++ axs
         ∨ (k = KStr "grab" ∧ getitem config "grab" = Ok e)).
Proof.
  intros (grab & bs & axs & Hg & Hd & ->)%parse_inv.
  destruct (descriptors_inv _ _ _ Hd) as (bl & al & Hbl & Hal & Hbs & Haxs).
  destruct (marked_buttons_inv _ _ _ Hbs) as [Hlb Hallb].
  destruct (marked_axes_inv _ _ _ Haxs) as [Hla Halla].
  pose proof (descriptors_ids _ _ _ _ _ Hbl Hal Hd) as Hids.
  assert (NoDup (action_id <$> allocated bs axs)) as Hnd.
  { rewrite Hids. apply ids_NoDup. }
  exists bl, al, bs, axs. split_and!; try done.
  - intros n k b Hn.
    destruct (lookup_lt_is_Some_2 bl n) as [b0 Hb0].
    { rewrite <- Hlb. by eapply lookup_lt_Some. }
    destruct (Hallb n b0 Hb0) as (k' & b' & Hn' & Hm & _).
    rewrite Hn in Hn'. injection Hn' as <- <-.
    by apply mark_button_id in Hm.
  - intros n k a Hn.
    destruct (lookup_lt_is_Some_2 al n) as [a0 Ha0].
    { rewrite <- Hla. by eapply lookup_lt_Some. }
    destruct (Halla n a0 Ha0) as (k' & a' & Hn' & Hm & _).
    rewrite Hn in Hn'. injection Hn' as <- <-.
    apply mark_axis_fields in Hm as (? & ? & _). done.
  - intros p q a a' Hp Hq Heq.
    eapply (NoDup_lookup _ p q (action_id a) Hnd).
    + by rewrite list_lookup_fmap, Hp.
    + by rewrite list_lookup_fmap, Hq, Heq.
  - intros k e [Hin | Hl]%store_all_lookup; [by left |]. right.
    destruct (decide (k = KStr "grab")) as [-> | Hne].
    + rewrite lookup_insert_eq in Hl. by injection Hl as <-.
    + by rewrite lookup_insert_ne in Hl.
Qed.

(** C4, as amended.  When [parse] returns an event map, its keys are
    [grab] and the codes of the listed buttons and axes, and no other.  A
    code maps to the descriptor of the last listed control that has it,
    axes coming after buttons, so with pairwise different codes each
    listed control has its own entry; [grab] maps to the grab flag of the
    configuration unless a listed control has the code ['grab']. *)
Theorem parse_eventmap_entries (config : pyval) (eventmap : gmap key pyval) :
  parse config = Ok eventmap →
  ∃ grab bl al bs axs,
    getitem config "grab" = Ok grab
    ∧ listed config "buttons" = Ok bl
    ∧ listed config "axes" = Ok al
    ∧ descriptors config = Ok (bs, axs)
    ∧ (∀ n b, bl !! n = Some b →
         ∃ k b', bs !! n = Some (k, b')
           ∧ mark_button (Z.of_nat n) b = Ok b' ∧ entry_key b' = Ok k)
    ∧ (∀ n a, al !! n = Some a →
         ∃ k a', axs !! n = Some (k, a')
           ∧ mark_axis (Z.of_nat (length bl) + 2 * Z.of_nat n) a = Ok a'
           ∧ entry_key a' = Ok k)
    ∧ dom eventmap = {[ KStr "grab" ]} ∪ list_to_set (bs ++ axs).*1
    ∧ NoDup (map_to_list eventmap).*1
    ∧ (∀ k e, eventmap !! k = Some e →
         (k, e) ∈ bs ++ axs ∨ (k = KStr "grab" ∧ e = grab))
    ∧ (∀ l1 k e l2, bs ++ axs = l1 ++ (k, e) :: l2 → k ∉ l2.*1 →
         eventmap !! k = Some e)
    ∧ (NoDup (bs ++ axs).*1 →
         ∀ k e, (k, e) ∈ bs ++ axs → eventmap !! k = Some e)
    ∧ (KStr "grab" ∉ (bs ++ axs).*1 → eventmap !! KStr "grab" = Some grab).
Proof.
  intros (grab & bs & axs & Hg & Hd & ->)%parse_inv.
  destruct (descriptors_inv _ _ _ Hd) as (bl & al & Hbl & Hal & Hbs & Haxs).
  destruct (marked_buttons_inv _ _ _ Hbs) as [Hlb Hallb].
  destruct (marked_axes_inv _ _ _ Haxs) as [Hla Halla].
  exists grab, bl, al, bs, axs. split_and!; try done.
  - rewrite store_all_dom, dom_insert_L, dom_empty_L. set_solver.
  - apply NoDup_fst_map_to_list.
  - intros k e [Hin | Hl]%store_all_lookup; [by left |]. right.
    destruct (decide (k = KStr "grab")) as [-> | Hne].
    + rewrite lookup_insert_eq in Hl. by injection Hl as <-.
    + by rewrite lookup_insert_ne in Hl.
  - intros l1 k e l2 -> Hn. by apply store_all_last.
  - intros Hnd k e Hin. by apply store_all_NoDup.
  - intros Hn. rewrite store_all_lookup_notin by done.
    apply lookup_insert_eq.
Qed.

(** C6.  When [parse] returns an event map, both endpoints of each axis
    descriptor hold the state ['up'], and a button descriptor is the listed
    button with the id of its press action set and nothing else changed:
    the press action has a [state] field only if the configuration gave it
    one. *)
Theorem parse_latch_state (config : pyval) (eventmap : gmap key pyval) :
  parse config = Ok eventmap →
  ∃ bl al bs axs,
    listed config "buttons" = Ok bl
    ∧ listed config "axes" = Ok al
    ∧ descriptors config = Ok (bs, axs)
    ∧ length axs = length al
    ∧ (∀ k a, (k, a) ∈ axs →
         action_field a "min" "state" = Some (PStr "up")
         ∧ action_field a "max" "state" = Some (PStr "up"))
    ∧ (∀ n b, bl !! n = Some b →
         ∃ k b', bs !! n = Some (k, b')
           ∧ action_field b' "press" "state" = action_field b "press" "state"
           ∧ (∀ f, f ≠ "id" →
                action_field b' "press" f = action_field b "press" f)
           ∧ (∀ slot, slot ≠ "press" → field b' slot = field b slot))
    ∧ (∀ k e, eventmap !! k = Some e →
         (k, e) ∈ bs ∨ (k, e) ∈ axs
         ∨ (k = KStr "grab" ∧ getitem config "grab" = Ok e)).
Proof.
  intros (grab & bs & axs & Hg & Hd & ->)%parse_inv.
  destruct (descriptors_inv _ _ _ Hd) as (bl & al & Hbl & Hal & Hbs & Haxs).
  destruct (marked_buttons_inv _ _ _ Hbs) as [Hlb Hallb].
  destruct (marked_axes_inv _ _ _ Haxs) as [Hla Halla].
  exists bl, al, bs, axs. split_and!; try done.
  - intros k a (n & Hn)%list_elem_of_lookup.
    destruct (lookup_lt_is_Some_2 al n) as [a0 Ha0].
    { rewrite <- Hla. by eapply lookup_lt_Some. }
    destruct (Halla n a0 Ha0) as (k' & a' & Hn' & Hm & _).
    rewrite Hn in Hn'. injection Hn' as <- <-.
    apply mark_axis_fields in Hm as (_ & _ & ? & ?). done.
  - intros n b Hb.
    destruct (Hallb n b Hb) as (k & b' & Hn & Hm & _).
    destruct (mark_button_frame _ _ _ Hm) as [Hslots Hfields].
    exists k, b'. split_and!; try done. by apply Hfields.
  - intros k e [Hin | Hl]%store_all_lookup.
    + apply elem_of_app in Hin as [? | ?]; auto.
    + right. right. destruct (decide (k = KStr "grab")) as [-> | Hne].
      * rewrite lookup_insert_eq in Hl. by injection Hl as <-.
      * by rewrite lookup_insert_ne in Hl.
Qed.

End EventMap.

(** ** The configurations [parse] accepts *)

Section Accepted.
Import Config.

Lemma marked_buttons_ok l i :
  Forall well_formed_button l → ∃ bs, marked_buttons i l = Ok bs.
Proof.
  intros Hl. revert i. induction Hl as [|b l Hb _ IH]; intros i.
  - by exists [].
  - destruct Hb as (d & pd & c & k & -> & Hp & Hc & Hk).
    destruct (IH (i + 1)) as [rest Hrest]. simpl.
    rewrite (mark_button_ok _ _ _ Hp). run. unfold entry_key. run.
    rewrite lookup_insert_ne, Hc by done. run. rewrite Hk, Hrest. run.
    by eexists.
Qed.

Lemma marked_axes_ok l i :
  Forall well_formed_axis l → ∃ axs, marked_axes i l = Ok axs.
Proof.
  intros Hl. revert i. induction Hl as [|a l Ha _ IH]; intros i.
  - by exists [].
  - destruct Ha as (d & mn & mx & c & k & -> & Hmn & Hmx & Hc & Hk).
    destruct (IH (i + 2)) as [rest Hrest]. simpl.
    rewrite (mark_axis_ok _ _ _ _ Hmn Hmx). run. unfold entry_key. run.
    rewrite !lookup_insert_ne, Hc by done. run. rewrite Hk, Hrest. run.
    by eexists.
Qed.

(** [parse] goes through on a configuration whose controls are well
    formed. *)
Lemma parse_well_formed config grab bl al :
  field config "grab" = Some grab →
  field config "buttons" = Some (PList bl) →
  field config "axes" = Some (PList al) →
  Forall well_formed_button bl → Forall well_formed_axis al →
  ∃ bs axs,
    descriptors config = Ok (bs, axs)
    ∧ listed config "buttons" = Ok bl ∧ listed config "axes" = Ok al
    ∧ parse config
        = Ok (store_all (bs ++ axs) (<[KStr "grab" := grab]> ∅)).
Proof.
  intros Hg Hb Ha Hwb Hwa. destruct config as [| | | | |d]; try done.
  simpl in Hg, Hb, Ha.
  destruct (marked_buttons_ok bl 0 Hwb) as [bs Hbs].
  destruct (marked_axes_ok al (Z.of_nat (length bl)) Hwa) as [axs Haxs].
  assert (listed (PDict d) "buttons" = Ok bl) as Hlb.
  { unfold listed. run. by rewrite Hb. }
  assert (listed (PDict d) "axes" = Ok al) as Hla.
  { unfold listed. run. by rewrite Ha. }
  assert (descriptors (PDict d) = Ok (bs, axs)) as Hd.
  { unfold descriptors. rewrite Hlb. run. rewrite Hbs. run.
    rewrite Hla. run. by rewrite Haxs. }
  exists bs, axs. split_and!; try done.
  rewrite parse_unfold, Hd. run. by rewrite Hg.
Qed.

Lemma marked_button_well_formed i b b' k :
  mark_button i b = Ok b' → entry_key b' = Ok k → well_formed_button b.
Proof.
  intros (d & pd & -> & Hp & ->)%mark_button_inv Hk.
  unfold entry_key in Hk. apply bind_Ok in Hk as (c & Hc & Hk).
  unfold getitem in Hc. rewrite lookup_insert_ne in Hc by done.
  destruct (d !! "code") as [c'|] eqn:Hcode; [| done].
  injection Hc as ->. by exists d, pd, c, k.
Qed.

Lemma marked_axis_well_formed i a a' k :
  mark_axis i a = Ok a' → entry_key a' = Ok k → well_formed_axis a.
Proof.
  intros (d & mn & mx & -> & Hmn & Hmx & ->)%mark_axis_inv Hk.
  unfold entry_key in Hk. apply bind_Ok in Hk as (c & Hc & Hk).
  unfold getitem in Hc. rewrite !lookup_insert_ne in Hc by done.
  destruct (d !! "code") as [c'|] eqn:Hcode; [| done].
  injection Hc as ->. by exists d, mn, mx, c, k.
Qed.

(** [parse] returns an event map exactly for the configurations that have
    the key [grab] and list well-formed buttons and axes. *)
Lemma parse_returns_iff config :
  (∃ eventmap, parse config = Ok eventmap) ↔
  ∃ grab bl al,
    getitem config "grab" = Ok grab
    ∧ listed config "buttons" = Ok bl ∧ listed config "axes" = Ok al
    ∧ Forall well_formed_button bl ∧ Forall well_formed_axis al.
Proof.
  split.
  - intros [eventmap (grab & bs & axs & Hg & Hd & _)%parse_inv].
    destruct (descriptors_inv _ _ _ Hd) as (bl & al & Hbl & Hal & Hbs & Haxs).
    destruct (marked_buttons_inv _ _ _ Hbs) as [_ Hallb].
    destruct (marked_axes_inv _ _ _ Haxs) as [_ Halla].
    exists grab, bl, al. split_and!; try done.
    + apply Forall_lookup. intros n b Hb.
      destruct (Hallb n b Hb) as (k & b' & _ & Hm & Hk).
      by eapply marked_button_well_formed.
    + apply Forall_lookup. intros n a Ha.
      destruct (Halla n a Ha) as (k & a' & _ & Hm & Hk).
      by eapply marked_axis_well_formed.
  - intros (grab & bl & al & Hg & Hbl & Hal & Hwb & Hwa).
    destruct (marked_buttons_ok bl 0 Hwb) as [bs Hbs].
    destruct (marked_axes_ok al (Z.of_nat (length bl)) Hwa) as [axs Haxs].
    exists (store_all (bs ++ axs) (<[KStr "grab" := grab]> ∅)).
    rewrite parse_unfold, Hg. unfold descriptors. rewrite Hbl. run.
    rewrite Hbs. run. rewrite Hal. run. by rewrite Haxs.
Qed.

End Accepted.

(** ** The default configuration *)

Section Generate.
Context {P : Platform}.
Import Config.

Lemma for_each_code_events t evs acc acc' :
  for_each (generate_code_event t) acc evs = Ok acc' →
  axes acc' = axes acc
  ∧ buttons acc' = buttons acc ++
      (button_of <$> (if bool_decide (t = Evdev.EV_KEY) then evs else [])).
Proof.
  revert acc. induction evs as [|[n c] evs IH]; intros acc Hf.
  - injection Hf as <-. split; [done |].
    destruct (bool_decide _); by rewrite app_nil_r.
  - rewrite for_each_cons in Hf. apply bind_Ok in Hf as (acc1 & H1 & Hf).
    apply IH in Hf as [Ha Hb]. unfold generate_code_event in H1.
    destruct (bool_decide (t = Evdev.EV_KEY)) eqn:Ek.
    + injection H1 as <-. simpl in *. split; [done |].
      by rewrite Hb, <- app_assoc.
    + destruct (bool_decide (t = Evdev.EV_ABS)); [done |].
      injection H1 as <-. done.
Qed.

Lemma for_each_abs_events evs acc :
  for_each generate_abs_event acc evs
    = Ok {| axes := axes acc ++ (axis_of <$> evs); buttons := buttons acc |}.
Proof.
  revert acc. induction evs as [|[[n c] info] evs IH]; intros acc.
  - simpl. rewrite app_nil_r. by destruct acc.
  - rewrite for_each_cons. unfold generate_abs_event at 1. run.
    rewrite IH. simpl. by rewrite <- app_assoc.
Qed.

Lemma for_each_generate_entry caps acc acc' :
  for_each generate_entry acc caps = Ok acc' →
  axes acc' = axes acc ++ (axis_of <$> abs_events caps)
  ∧ buttons acc' = buttons acc ++ (button_of <$> key_events caps).
Proof.
  revert acc. induction caps as [|entry caps IH]; intros acc Hf.
  - injection Hf as <-. by rewrite !app_nil_r.
  - rewrite for_each_cons in Hf. apply bind_Ok in Hf as (acc1 & H1 & Hf).
    apply IH in Hf as [Ha Hb].
    unfold abs_events, key_events. rewrite !bind_cons, !fmap_app.
    fold (abs_events caps). fold (key_events caps).
    destruct entry as [tn t evs | tn evs]; simpl in H1.
    + apply for_each_code_events in H1 as [Ha1 Hb1].
      rewrite Ha, Hb, Ha1, Hb1. simpl. by rewrite app_assoc.
    + rewrite for_each_abs_events in H1. injection H1 as <-.
      rewrite Ha, Hb. simpl. by rewrite app_assoc.
Qed.

(** [generate] lists one button for each event of type [EV_KEY] and one
    axis for each event that comes with an [AbsInfo]. *)
Lemma generate_inv device config :
  generate device = Ok config →
  config = PDict {[
    "grab" := PBool false;
    "axes" := PList (axis_of <$> abs_events (Evdev.capabilities device));
    "buttons" := PList (button_of <$> key_events (Evdev.capabilities device))
  ]}.
Proof.
  unfold generate. intros Hg. apply bind_Ok in Hg as (acc & Hf & Hg).
  apply for_each_generate_entry in Hf as [Ha Hb]. simpl in Ha, Hb.
  injection Hg as <-. by rewrite Ha, Hb.
Qed.

Lemma button_of_fields event :
  ∃ d, button_of event = PDict d
    ∧ d !! "press"
        = Some (PDict (action (first_element (Evdev.Resolved event.1))))
    ∧ d !! "code" = Some (PInt event.2)
    ∧ d !! "alias" = Some (PStr (first_element (Evdev.Resolved event.1))).
Proof. eexists. split; [reflexivity |]. by split_and!. Qed.

Lemma action_fields event_name :
  action event_name !! "trigger" = Some (PStr "normal")
  ∧ action event_name !! "type" = Some (PStr "exec")
  ∧ action event_name !! "target" = Some (PStr ("echo " +:+ event_name))
  ∧ action event_name !! "value" = None.
Proof. by split_and!. Qed.

Lemma limit_fields event_name v suffix :
  let a := append_target (<["value" := PInt v]> (action event_name)) suffix in
  a !! "trigger" = Some (PStr "normal")
  ∧ a !! "type" = Some (PStr "exec")
  ∧ a !! "target" = Some (PStr (("echo " +:+ event_name) +:+ suffix))
  ∧ a !! "value" = Some (PInt v).
Proof. by split_and!. Qed.

Lemma axis_of_fields event :
  let event_name := first_element (Evdev.ResolvedCode event.1.1 event.1.2) in
  ∃ d, axis_of event = PDict d
    ∧ d !! "min" = Some (PDict (append_target
        (<["value" := PInt (Evdev.min event.2)]> (action event_name)) " min"))
    ∧ d !! "max" = Some (PDict (append_target
        (<["value" := PInt (Evdev.max event.2)]> (action event_name)) " max"))
    ∧ d !! "code" = Some (PInt event.1.2)
    ∧ d !! "alias" = Some (PStr event_name).
Proof. eexists. split; [reflexivity |]. by split_and!. Qed.

End Generate.

(** ** [parse] on the default configuration *)

Section GenerateParse.
Context {P : Platform}.
Import Config.

Lemma button_of_well_formed event : well_formed_button (button_of event).
Proof.
  destruct (button_of_fields event) as (d & Hd & Hp & Hc & _).
  exists d, (action (first_element (Evdev.Resolved event.1))),
    (PInt event.2), (KInt event.2). by rewrite Hd.
Qed.

Lemma axis_of_well_formed event : well_formed_axis (axis_of event).
Proof.
  destruct (axis_of_fields event) as (d & Hd & Hmn & Hmx & Hc & _).
  exists d. do 2 eexists. exists (PInt event.1.2), (KInt event.1.2).
  by rewrite Hd.
Qed.

Lemma for_each_code_events_ok t evs acc :
  (t = Evdev.EV_ABS → evs = []) →
  ∃ acc1, for_each (generate_code_event t) acc evs = Ok acc1.
Proof.
  intros Ht. destruct (decide (t = Evdev.EV_ABS)) as [He | Hne].
  { rewrite (Ht He). by eexists. }
  clear Ht. revert acc. induction evs as [|[n c] evs IH]; intros acc.
  - by eexists.
  - rewrite for_each_cons.
    assert (∃ acc1, generate_code_event t acc (n, c) = Ok acc1) as [acc1 ->].
    { unfold generate_code_event.
      destruct (bool_decide (t = Evdev.EV_KEY)); [by eexists |].
      rewrite bool_decide_eq_false_2 by done. by eexists. }
    apply IH.
Qed.

(** [generate] returns a configuration unless the listing gives events
    without an [AbsInfo] under the type id [EV_ABS]. *)
Lemma generate_returns device :
  Forall (λ entry,
    match entry with
    | Evdev.CodeCap _ t evs => t = Evdev.EV_ABS → evs = []
    | Evdev.AbsCap _ _ => True
    end) (Evdev.capabilities device) →
  ∃ config, generate device = Ok config.
Proof.
  unfold generate. generalize {| axes := []; buttons := [] |}.
  intros acc Hc. revert acc.
  induction Hc as [|entry caps He _ IH]; intros acc.
  - by eexists.
  - rewrite for_each_cons.
    assert (∃ acc1, generate_entry acc entry = Ok acc1) as [acc1 ->].
    { destruct entry as [tn t evs | tn evs]; simpl.
      - by apply for_each_code_events_ok.
      - rewrite for_each_abs_events. by eexists. }
    apply IH.
Qed.

Lemma marked_buttons_cons i b l :
  marked_buttons i (b :: l)
    = (b' ← mark_button i b; k ← entry_key b';
       rest ← marked_buttons (i + 1) l; Ok ((k, b') :: rest)).
Proof. reflexivity. Qed.

Lemma marked_axes_cons i a l :
  marked_axes i (a :: l)
    = (a' ← mark_axis i a; k ← entry_key a';
       rest ← marked_axes (i + 2) l; Ok ((k, a') :: rest)).
Proof. reflexivity. Qed.

(** The keys of the descriptors are the codes of the events. *)
Lemma marked_buttons_generated evs i bs :
  marked_buttons i (button_of <$> evs) = Ok bs →
  bs.*1 = KInt <$> evs.*2.
Proof.
  revert i bs. induction evs as [|ev evs IH]; intros i bs Hm.
  - by injection Hm as <-.
  - rewrite fmap_cons, marked_buttons_cons in Hm.
    apply bind_Ok in Hm as (b' & Hb & Hm).
    apply bind_Ok in Hm as (k & Hk & Hm).
    apply bind_Ok in Hm as (rest & Hr & Hm).
    injection Hm as <-. rewrite !fmap_cons. simpl.
    rewrite (IH _ _ Hr). f_equal.
    destruct (button_of_fields ev) as (d & Hd & _ & Hc & _).
    rewrite Hd in Hb.
    apply mark_button_inv in Hb as (d' & pd & [= <-] & _ & ->).
    unfold entry_key in Hk. run in Hk.
    rewrite lookup_insert_ne, Hc in Hk by done. by injection Hk as <-.
Qed.

Lemma marked_axes_generated evs i axs :
  marked_axes i (axis_of <$> evs) = Ok axs →
  axs.*1 = KInt <$> evs.*1.*2.
Proof.
  revert i axs. induction evs as [|ev evs IH]; intros i axs Hm.
  - by injection Hm as <-.
  - rewrite fmap_cons, marked_axes_cons in Hm.
    apply bind_Ok in Hm as (a' & Ha & Hm).
    apply bind_Ok in Hm as (k & Hk & Hm).
    apply bind_Ok in Hm as (rest & Hr & Hm).
    injection Hm as <-. rewrite !fmap_cons. simpl.
    rewrite (IH _ _ Hr). f_equal.
    destruct (axis_of_fields ev) as (d & Hd & _ & _ & Hc & _).
    rewrite Hd in Ha.
    apply mark_axis_inv in Ha as (d' & mn & mx & [= <-] & _ & _ & ->).
    unfold entry_key in Hk. run in Hk.
    rewrite !lookup_insert_ne, Hc in Hk by done. by injection Hk as <-.
Qed.

(** The ids of an entry, slot by slot. *)
Lemma entry_ids_unfold e :
  entry_ids e
    = option_list (action_field e "press" "id" ≫= id_value)
      ++ option_list (action_field e "min" "id" ≫= id_value)
      ++ option_list (action_field e "max" "id" ≫= id_value).
Proof.
  unfold entry_ids. simpl.
  by destruct (action_field e "press" "id" ≫= id_value),
    (action_field e "min" "id" ≫= id_value),
    (action_field e "max" "id" ≫= id_value).
Qed.

Lemma no_slot_no_id e slot :
  field e slot = None → action_field e slot "id" ≫= id_value = None.
Proof. unfold action_field. by intros ->. Qed.

Lemma marked_button_entry_ids i ev b' :
  mark_button i (button_of ev) = Ok b' → entry_ids b' = [i].
Proof.
  intros Hm. rewrite entry_ids_unfold.
  destruct (mark_button_frame _ _ _ Hm) as [Hframe _].
  rewrite (mark_button_id _ _ _ Hm).
  rewrite !no_slot_no_id; [done | |]; by rewrite Hframe.
Qed.

Lemma marked_axis_entry_ids i ev a' :
  mark_axis i (axis_of ev) = Ok a' → entry_ids a' = [i; i + 1].
Proof.
  intros Hm. rewrite entry_ids_unfold.
  destruct (mark_axis_fields _ _ _ Hm) as (-> & -> & _).
  rewrite no_slot_no_id; [done |].
  by rewrite (mark_axis_frame _ _ _ Hm).
Qed.

(** The ids of the descriptors, in the order of the lists, count up. *)
Lemma marked_buttons_entry_ids evs i bs :
  marked_buttons i (button_of <$> evs) = Ok bs →
  bs.*2 ≫= entry_ids = seqZ i (Z.of_nat (length evs)).
Proof.
  revert i bs. induction evs as [|ev evs IH]; intros i bs Hm.
  - by injection Hm as <-.
  - rewrite fmap_cons, marked_buttons_cons in Hm.
    apply bind_Ok in Hm as (b' & Hb & Hm).
    apply bind_Ok in Hm as (k & Hk & Hm).
    apply bind_Ok in Hm as (rest & Hr & Hm).
    injection Hm as <-. rewrite fmap_cons, bind_cons. simpl.
    rewrite (marked_button_entry_ids _ _ _ Hb), (IH _ _ Hr).
    rewrite (seqZ_cons i) by lia. simpl. do 2 f_equal; lia.
Qed.

Lemma marked_axes_entry_ids evs i axs :
  marked_axes i (axis_of <$> evs) = Ok axs →
  axs.*2 ≫= entry_ids = seqZ i (2 * Z.of_nat (length evs)).
Proof.
  revert i axs. induction evs as [|ev evs IH]; intros i axs Hm.
  - by injection Hm as <-.
  - rewrite fmap_cons, marked_axes_cons in Hm.
    apply bind_Ok in Hm as (a' & Ha & Hm).
    apply bind_Ok in Hm as (k & Hk & Hm).
    apply bind_Ok in Hm as (rest & Hr & Hm).
    injection Hm as <-. rewrite fmap_cons, bind_cons. simpl.
    rewrite (marked_axis_entry_ids _ _ _ Ha), (IH _ _ Hr).
    rewrite (seqZ_cons i) by lia. rewrite (seqZ_cons (Z.succ i)) by lia.
    simpl. do 3 f_equal; lia.
Qed.

Lemma button_entry_ids_nonempty evs i bs k e :
  marked_buttons i (button_of <$> evs) = Ok bs → (k, e) ∈ bs →
  entry_ids e ≠ [].
Proof.
  intros Hm (n & Hn)%list_elem_of_lookup.
  destruct (marked_buttons_inv _ _ _ Hm) as [Hlen Hall].
  destruct (lookup_lt_is_Some_2 (button_of <$> evs) n) as [b Hb].
  { rewrite <- Hlen. by eapply lookup_lt_Some. }
  destruct (Hall n b Hb) as (k' & b' & Hn' & Hmark & _).
  rewrite Hn in Hn'. injection Hn' as <- <-.
  apply list_lookup_fmap_Some in Hb as (ev & -> & _).
  by rewrite (marked_button_entry_ids _ _ _ Hmark).
Qed.

Lemma axis_entry_ids_nonempty evs i axs k e :
  marked_axes i (axis_of <$> evs) = Ok axs → (k, e) ∈ axs →
  entry_ids e ≠ [].
Proof.
  intros Hm (n & Hn)%list_elem_of_lookup.
  destruct (marked_axes_inv _ _ _ Hm) as [Hlen Hall].
  destruct (lookup_lt_is_Some_2 (axis_of <$> evs) n) as [a Ha].
  { rewrite <- Hlen. by eapply lookup_lt_Some. }
  destruct (Hall n a Ha) as (k' & a' & Hn' & Hmark & _).
  rewrite Hn in Hn'. injection Hn' as <- <-.
  apply list_lookup_fmap_Some in Ha as (ev & -> & _).
  by rewrite (marked_axis_entry_ids _ _ _ Hmark).
Qed.

(** The ids that an event map holds are those of its entries. *)
Lemma eventmap_ids_elem (em : gmap key pyval) i :
  i ∈ eventmap_ids em ↔ (∃ k e, em !! k = Some e ∧ i ∈ entry_ids e).
Proof.
  unfold eventmap_ids. rewrite elem_of_list_to_set, list_elem_of_bind.
  split.
  - intros (e & Hi & ([k e'] & -> & Hin)%list_elem_of_fmap).
    apply elem_of_map_to_list in Hin. by exists k, e'.
  - intros (k & e & Hl & Hi). exists e. split; [done |].
    apply list_elem_of_fmap. exists (k, e). split; [done |].
    by apply elem_of_map_to_list.
Qed.

(** What a key maps to after the items were stored is the last item
    under that key, or what it mapped to before. *)
Lemma store_all_lookup_last items (em : gmap key pyval) k e :
  store_all items em !! k = Some e →
  (∃ l1 l2, items = l1 ++ (k, e) :: l2 ∧ k ∉ l2.*1)
  ∨ ((k ∉ items.*1) ∧ em !! k = Some e).
Proof.
  induction items as [|[k' e'] items IH] using rev_ind; intros Hl.
  - right. split; [apply not_elem_of_nil | done].
  - rewrite store_all_app in Hl. unfold store_all at 1 in Hl. simpl in Hl.
    destruct (decide (k' = k)) as [-> | Hne].
    + rewrite lookup_insert_eq in Hl. injection Hl as ->.
      left. exists items, []. split; [done | apply not_elem_of_nil].
    + rewrite lookup_insert_ne in Hl by done.
      apply IH in Hl as [(l1 & l2 & -> & Hn) | [Hn Hl]].
      * left. exists l1, (l2 ++ [(k', e')]).
        split; [by rewrite <- app_assoc |].
        rewrite fmap_app. simpl. rewrite elem_of_app, list_elem_of_singleton.
        by intros [? | ?].
      * right. split; [| done].
        rewrite fmap_app. simpl. rewrite elem_of_app, list_elem_of_singleton.
        by intros [? | ?].
Qed.

(** The ids in the event map of a list of descriptors, stored over
    [grab]: those of the descriptors that are the last under their key. *)
Lemma eventmap_ids_last items grab i :
  entry_ids grab = [] →
  i ∈ eventmap_ids (store_all items (<[KStr "grab" := grab]> ∅))
  ↔ (∃ l1 k e l2,
        items = l1 ++ (k, e) :: l2 ∧ (k ∉ l2.*1) ∧ i ∈ entry_ids e).
Proof.
  intros Hg. rewrite eventmap_ids_elem. split.
  - intros (k & e & Hl & Hi).
    apply store_all_lookup_last in Hl as [(l1 & l2 & -> & Hn) | [_ Hl]].
    + by exists l1, k, e, l2.
    + apply lookup_insert_Some in Hl as [[_ <-] | [_ Hl]]; [| done].
      rewrite Hg in Hi. by apply elem_of_nil in Hi.
  - intros (l1 & k & e & l2 & -> & Hn & Hi).
    exists k, e. split; [by apply store_all_last | done].
Qed.

(** In a list whose elements own disjoint lists, an owned value tells the
    position of its owner. *)
Lemma bind_NoDup_position {A B} (f : A → list B) l1 x l2 l1' x' l2' i :
  NoDup ((l1 ++ x :: l2) ≫= f) →
  l1 ++ x :: l2 = l1' ++ x' :: l2' →
  i ∈ f x → i ∈ f x' → length l2 = length l2'.
Proof.
  revert l1'. induction l1 as [|y l1 IH]; intros [|y' l1'] Hnd Heq Hi Hi'.
  - by injection Heq as _ ->.
  - injection Heq as <- ->. rewrite app_nil_l, bind_cons in Hnd.
    apply NoDup_app in Hnd as (_ & Hdis & _). destruct (Hdis i Hi).
    apply list_elem_of_bind. exists x'. split; [done |].
    apply elem_of_app. right. by left.
  - injection Heq as -> <-. rewrite <- app_comm_cons, bind_cons in Hnd.
    apply NoDup_app in Hnd as (_ & Hdis & _). destruct (Hdis i Hi').
    apply list_elem_of_bind. exists x. split; [done |].
    apply elem_of_app. right. by left.
  - injection Heq as <- Heq. rewrite <- app_comm_cons, bind_cons in Hnd.
    apply NoDup_app in Hnd as (_ & _ & Hnd). by eapply IH.
Qed.

Lemma NoDup_fst_of_splits {A B} (l : list (A * B)) :
  (∀ l1 k e l2, l = l1 ++ (k, e) :: l2 → k ∉ l2.*1) → NoDup l.*1.
Proof.
  induction l as [|[k e] l IH]; intros Hs; [constructor |].
  rewrite fmap_cons. constructor.
  - by apply (Hs [] k e l).
  - apply IH. intros l1 k' e' l2 ->. by apply (Hs ((k, e) :: l1) k' e' l2).
Qed.

Lemma NoDup_fst_split {A B} (l1 l2 : list (A * B)) k e :
  NoDup (l1 ++ (k, e) :: l2).*1 → k ∉ l2.*1.
Proof.
  rewrite fmap_app, fmap_cons. intros (_ & _ & Hnd)%NoDup_app.
  by apply NoDup_cons in Hnd as [? _].
Qed.

(** The ids of a default configuration in its event map: they are among
    the ids that were given, and they are all of them exactly when no two
    descriptors share a key. *)
Lemma generated_eventmap_ids kev aev bs axs :
  marked_buttons 0 (button_of <$> kev) = Ok bs →
  marked_axes (Z.of_nat (length kev)) (axis_of <$> aev) = Ok axs →
  let n := (length kev + 2 * length aev)%nat in
  let em := store_all (bs ++ axs) (<[KStr "grab" := PBool false]> ∅) in
  eventmap_ids em ⊆ list_to_set (seqZ 0 (Z.of_nat n))
  ∧ (size (eventmap_ids em) ≤ n)%nat
  ∧ (size (eventmap_ids em) = n ↔ NoDup (bs ++ axs).*1).
Proof.
  intros Hbs Haxs n em.
  assert ((bs ++ axs).*2 ≫= entry_ids = seqZ 0 (Z.of_nat n)) as Hall.
  { rewrite fmap_app, bind_app.
    rewrite (marked_buttons_entry_ids _ _ _ Hbs),
      (marked_axes_entry_ids _ _ _ Haxs).
    unfold n. rewrite Nat2Z.inj_add, Nat2Z.inj_mul, seqZ_app by lia.
    by rewrite Z.add_0_l. }
  assert (∀ l1 k e l2 i, bs ++ axs = l1 ++ (k, e) :: l2 → i ∈ entry_ids e →
            i ∈ seqZ 0 (Z.of_nat n)) as Hin.
  { intros l1 k e l2 i He Hi. rewrite <- Hall. apply list_elem_of_bind.
    exists e. split; [done |]. apply list_elem_of_fmap. exists (k, e).
    split; [done |]. rewrite He. apply elem_of_app. right. by left. }
  assert (size (list_to_set (C := gset Z) (seqZ 0 (Z.of_nat n))) = n)
    as Hsize.
  { rewrite size_list_to_set by apply NoDup_seqZ.
    rewrite length_seqZ. lia. }
  assert (eventmap_ids em ⊆ list_to_set (seqZ 0 (Z.of_nat n))) as Hsub.
  { intros i Hi. apply elem_of_list_to_set.
    apply eventmap_ids_last in Hi as (l1 & k & e & l2 & Heq & _ & Hi);
      [| done].
    by apply (Hin l1 k e l2). }
  split_and!; [done | |].
  - rewrite <- Hsize. by apply subseteq_size.
  - split.
    + intros Hn. apply NoDup_fst_of_splits. intros l1 k e l2 Heq.
      assert (eventmap_ids em = list_to_set (seqZ 0 (Z.of_nat n))) as Hids.
      { apply set_subseteq_size_eq; [done |]. rewrite Hsize. lia. }
      assert (∃ i, i ∈ entry_ids e) as [i Hi].
      { assert (entry_ids e ≠ []) as Hne.
        { assert ((k, e) ∈ bs ++ axs) as [He | He]%elem_of_app.
          { rewrite Heq. apply elem_of_app. right. by left. }
          - by eapply button_entry_ids_nonempty.
          - by eapply axis_entry_ids_nonempty. }
        destruct (entry_ids e) as [|i ids]; [done |].
        exists i. by left. }
      assert (i ∈ eventmap_ids em) as Hi'.
      { rewrite Hids. apply elem_of_list_to_set. by apply (Hin l1 k e l2). }
      apply eventmap_ids_last in Hi'
        as (l1' & k' & e' & l2' & Heq' & Hlast & Hi'); [| done].
      rewrite Heq in Heq'.
      assert (length l2 = length l2') as Hlen.
      { apply (bind_NoDup_position entry_ids l1.*2 e l2.*2 l1'.*2 e' l2'.*2 i)
          in Hi; [by rewrite !length_fmap in Hi | | | done].
        - replace (l1.*2 ++ e :: l2.*2) with (bs ++ axs).*2
            by (by rewrite Heq, fmap_app).
          rewrite Hall. apply NoDup_seqZ.
        - apply (f_equal (fmap snd)) in Heq'.
          by rewrite !fmap_app in Heq'. }
      apply app_inj_2 in Heq' as [_ Heq']; [| simpl; by rewrite Hlen].
      by injection Heq' as -> _ ->.
    + intros Hnd.
      assert (eventmap_ids em = list_to_set (seqZ 0 (Z.of_nat n))) as ->;
        [| done].
      apply set_eq. intros i. split; [apply Hsub |]. intros Hi.
      apply elem_of_list_to_set in Hi. rewrite <- Hall in Hi.
      apply list_elem_of_bind in Hi
        as (e & Hi & ([k e'] & -> & He)%list_elem_of_fmap).
      apply list_elem_of_split in He as (l1 & l2 & Heq).
      apply eventmap_ids_last; [done |].
      exists l1, k, e', l2. split_and!; [done | | done].
      rewrite Heq in Hnd. by eapply NoDup_fst_split.
Qed.
(** C8.  A configuration that [generate] returns has the keys [grab],
    [buttons] and [axes]; each of its buttons has a press action and each
    of its axes a min and a max action; [parse] returns an event map for
    it, and gives the ids 0, 1, ... to the actions of the configuration:
    as many distinct ids as there are buttons plus twice as many as there
    are axes.  Each action with its id is in the event map when no two
    controls share a code.  The ids that the event map holds are among
    those that were given, and they are that many exactly when no two
    controls of the device share a code. *)
Theorem generate_parse (device : Evdev.InputDevice) (config : pyval) :
  generate device = Ok config →
  ∃ bl al,
    field config "grab" = Some (PBool false)
    ∧ field config "buttons" = Some (PList bl)
    ∧ field config "axes" = Some (PList al)
    ∧ length bl = length (key_events (Evdev.capabilities device))
    ∧ length al = length (abs_events (Evdev.capabilities device))
    ∧ Forall well_formed_button bl
    ∧ Forall well_formed_axis al
    ∧ ∃ eventmap bs axs,
        parse config = Ok eventmap
        ∧ descriptors config = Ok (bs, axs)
        ∧ action_id <$> allocated bs axs
            = (λ n, Some (PInt n))
                <$> seqZ 0 (Z.of_nat (length bl) + 2 * Z.of_nat (length al))
        ∧ NoDup (action_id <$> allocated bs axs)
        ∧ length (allocated bs axs) = (length bl + 2 * length al)%nat
        ∧ (NoDup (bs ++ axs).*1 →
             ∀ k e, (k, e) ∈ bs ++ axs → eventmap !! k = Some e)
        ∧ (bs ++ axs).*1
            = KInt <$> ((key_events (Evdev.capabilities device)).*2
                        ++ (abs_events (Evdev.capabilities device)).*1.*2)
        ∧ eventmap_ids eventmap
            ⊆ list_to_set
                (seqZ 0 (Z.of_nat (length bl) + 2 * Z.of_nat (length al)))
        ∧ (size (eventmap_ids eventmap) ≤ length bl + 2 * length al)%nat
        ∧ (size (eventmap_ids eventmap) = (length bl + 2 * length al)%nat
           ↔ NoDup ((key_events (Evdev.capabilities device)).*2
                    ++ (abs_events (Evdev.capabilities device)).*1.*2)).
Proof.
  intros ->%generate_inv.
  set (kev := key_events (Evdev.capabilities device)).
  set (aev := abs_events (Evdev.capabilities device)).
  set (bl := button_of <$> kev).
  set (al := axis_of <$> aev).
  assert (Forall well_formed_button bl) as Hwb.
  { apply Forall_fmap, Forall_forall. intros e _.
    apply button_of_well_formed. }
  assert (Forall well_formed_axis al) as Hwa.
  { apply Forall_fmap, Forall_forall. intros e _.
    apply axis_of_well_formed. }
  assert (length bl = length kev) as Hlb0
    by (unfold bl; by rewrite length_fmap).
  assert (length al = length aev) as Hla0
    by (unfold al; by rewrite length_fmap).
  exists bl, al. split_and!; try done.
  destruct (parse_well_formed
    (PDict {[ "grab" := PBool false; "axes" := PList al;
              "buttons" := PList bl ]}) (PBool false) bl al)
    as (bs & axs & Hd & Hlb & Hla & Hp); try done.
  exists (store_all (bs ++ axs) (<[KStr "grab" := PBool false]> ∅)), bs, axs.
  pose proof (descriptors_ids _ _ _ _ _ Hlb Hla Hd) as Hids.
  destruct (descriptors_inv _ _ _ Hd) as (bl' & al' & Hlb' & Hla' & Hbs & Haxs).
  rewrite Hlb in Hlb'. rewrite Hla in Hla'.
  injection Hlb' as <-. injection Hla' as <-.
  destruct (marked_buttons_inv _ _ _ Hbs) as [Hnb _].
  destruct (marked_axes_inv _ _ _ Haxs) as [Hna _].
  assert ((bs ++ axs).*1 = KInt <$> (kev.*2 ++ aev.*1.*2)) as Hkeys.
  { rewrite !fmap_app. f_equal.
    - by eapply marked_buttons_generated.
    - by eapply marked_axes_generated. }
  rewrite Hlb0 in Haxs.
  destruct (generated_eventmap_ids _ _ _ _ Hbs Haxs) as (Hsub & Hle & Hiff).
  rewrite Hlb0, Hla0.
  replace (Z.of_nat (length kev) + 2 * Z.of_nat (length aev))
    with (Z.of_nat (length kev + 2 * length aev)) by lia.
  split_and!; try done.
  - rewrite Hids, Hlb0, Hla0. f_equal. f_equal. lia.
  - rewrite Hids. apply ids_NoDup.
  - by rewrite allocated_length, Hnb, Hna, Hlb0, Hla0.
  - intros Hnd k e Hin. by apply store_all_NoDup.
  - rewrite Hiff, Hkeys. apply NoDup_fmap. by intros x y [= ->].
Qed.

(** C9.  In a configuration that [generate] returns, [grab] is false; the
    buttons are the events of type [EV_KEY] and the axes the events listed
    with an [AbsInfo], in their order.  Each action has the trigger
    [normal], the type [exec] and the target [echo ] followed by the name
    of the event; the min and the max action of an axis hold the minimum
    and the maximum of its [AbsInfo] as [value], and their targets end in
    [ min] and [ max]. *)
Theorem generate_default_actions
    (device : Evdev.InputDevice) (config : pyval) :
  generate device = Ok config →
  ∃ bl al,
    field config "grab" = Some (PBool false)
    ∧ field config "buttons" = Some (PList bl)
    ∧ field config "axes" = Some (PList al)
    ∧ length bl = length (key_events (Evdev.capabilities device))
    ∧ length al = length (abs_events (Evdev.capabilities device))
    ∧ (∀ n names code,
         key_events (Evdev.capabilities device) !! n = Some (names, code) →
         let event_name := first_element (Evdev.Resolved names) in
         ∃ b, bl !! n = Some b
           ∧ field b "alias" = Some (PStr event_name)
           ∧ field b "code" = Some (PInt code)
           ∧ action_field b "press" "trigger" = Some (PStr "normal")
           ∧ action_field b "press" "type" = Some (PStr "exec")
           ∧ action_field b "press" "target"
               = Some (PStr ("echo " +:+ event_name)))
    ∧ (∀ n names code info,
         abs_events (Evdev.capabilities device) !! n
           = Some (names, code, info) →
         let event_name := first_element (Evdev.ResolvedCode names code) in
         ∃ a, al !! n = Some a
           ∧ field a "alias" = Some (PStr event_name)
           ∧ field a "code" = Some (PInt code)
           ∧ action_field a "min" "trigger" = Some (PStr "normal")
           ∧ action_field a "min" "type" = Some (PStr "exec")
           ∧ action_field a "min" "target"
               = Some (PStr (("echo " +:+ event_name) +:+ " min"))
           ∧ action_field a "min" "value" = Some (PInt (Evdev.min info))
           ∧ action_field a "max" "trigger" = Some (PStr "normal")
           ∧ action_field a "max" "type" = Some (PStr "exec")
           ∧ action_field a "max" "target"
               = Some (PStr (("echo " +:+ event_name) +:+ " max"))
           ∧ action_field a "max" "value" = Some (PInt (Evdev.max info))).
Proof.
  intros ->%generate_inv.
  exists (button_of <$> key_events (Evdev.capabilities device)),
    (axis_of <$> abs_events (Evdev.capabilities device)).
  split_and!; try done.
  - by rewrite length_fmap.
  - by rewrite length_fmap.
  - intros n names code Hn event_name. exists (button_of (names, code)).
    split; [by rewrite list_lookup_fmap, Hn |]. by split_and!.
  - intros n names code info Hn event_name.
    exists (axis_of (names, code, info)).
    split; [by rewrite list_lookup_fmap, Hn |]. by split_and!.
Qed.

End GenerateParse.

(** ** [create] *)

Section Create.
Context {P : Platform}.
Import Config.

Lemma write_file_state w p text w' r :
  write_file w p text = (w', r) →
  r = Ok () ∧ open_write w p text = Ok w' ∨ ∃ e, r = Err e.
Proof.
  unfold open_write. intros ->.
  destruct r as [[] | e]; [by left | right; by eexists].
Qed.

Lemma save_state w p config w' r :
  save w p config = (w', r) →
  r = Ok () ∧ (∃ w1, open_write w1 p (json_dumps config) = Ok w'
                ∧ (mkdir w config_dir = Ok w1
                   ∨ ∃ e, mkdir w config_dir = Err e
                       ∧ isinstance e FileExistsError = true ∧ w1 = w))
  ∨ ∃ e, r = Err e.
Proof.
  unfold save. intros Hs.
  destruct (mkdir w config_dir) as [w1 | e] eqn:Hm.
  - apply write_file_state in Hs as [[-> Ho] | He]; [left | by right].
    split; [done |]. exists w1. split; [done | by left].
  - destruct (isinstance e FileExistsError) eqn:Hi.
    + apply write_file_state in Hs as [[-> Ho] | He]; [left | by right].
      split; [done |]. exists w. split; [done |]. right. by exists e.
    + injection Hs as <- <-. right. by eexists.
Qed.

(** C10.  [create] answers [No such device] followed by the device path
    when opening the device raises [FileNotFoundError], and the path of the
    default configuration followed by [ already exists, not overwriting]
    when that path exists; whenever it returns an error string the file
    system is as it was.  It returns nothing only after the device was
    opened, the path did not exist, and the generated configuration was
    written there; and the file system changes in no other case than with
    the device opened and the path not existing. *)
Theorem create_never_overwrites (w : fs) (dev_path : string) :
  (∀ exc, open_device w dev_path = Err exc →
     isinstance exc FileNotFoundError = true →
     create w dev_path = (w, Ok (Some ("No such device " +:+ dev_path))))
  ∧ (∀ device, open_device w dev_path = Ok device →
       path_exists w (_get_device_config_path device) = true →
       create w dev_path
         = (w, Ok (Some (_get_device_config_path device
                           +:+ " already exists, not overwriting"))))
  ∧ (∀ w' msg, create w dev_path = (w', Ok (Some msg)) → w' = w)
  ∧ (∀ w', create w dev_path = (w', Ok None) →
       ∃ device config w1,
         open_device w dev_path = Ok device
         ∧ path_exists w (_get_device_config_path device) = false
         ∧ generate device = Ok config
         ∧ (mkdir w config_dir = Ok w1
            ∨ ∃ e, mkdir w config_dir = Err e
                ∧ isinstance e FileExistsError = true ∧ w1 = w)
         ∧ open_write w1 (_get_device_config_path device) (json_dumps config)
             = Ok w')
  ∧ (∀ w' r, create w dev_path = (w', r) → w' ≠ w →
       ∃ device, open_device w dev_path = Ok device
         ∧ path_exists w (_get_device_config_path device) = false).
Proof.
  unfold create. split_and!.
  - intros exc -> ->. done.
  - intros device -> ->. done.
  - intros w' msg Hc.
    destruct (open_device w dev_path) as [device | exc].
    + destruct (path_exists w _); [by injection Hc as <- |].
      destruct (generate device) as [config | e]; [| by injection Hc as <-].
      destruct (save w _ config) as [w2 [[] | e]]; by injection Hc.
    + by destruct (isinstance exc FileNotFoundError); injection Hc as <-.
  - intros w' Hc.
    destruct (open_device w dev_path) as [device | exc];
      [| by destruct (isinstance exc FileNotFoundError)].
    destruct (path_exists w _) eqn:He; [done |].
    destruct (generate device) as [config | e] eqn:Hg; [| done].
    destruct (save w _ config) as [w2 r] eqn:Hs.
    apply save_state in Hs as [[-> (w1 & Ho & Hm)] | [e ->]]; [| done].
    run in Hc. injection Hc as <-. by exists device, config, w1.
  - intros w' r Hc Hne.
    destruct (open_device w dev_path) as [device | exc].
    + destruct (path_exists w _) eqn:He; [by injection Hc as <- |].
      by exists device.
    + by destruct (isinstance exc FileNotFoundError); injection Hc as <-.
Qed.

End Create.

(** ** The hysteresis latch on the range from 0 to 255 *)

Section HysteresisRun.
Import Hysteresis.

(** C7.  On the range from 0 to 255 the thresholds are 63.75 and 191.25;
    with both latches up, the raw values 0, 64, 128, 192, 256, 192, 128, 64
    emit, in this order, min down at 0, min up at 64, max down at the first
    192 and max up at the second 128, and nothing at the other values. *)
Theorem hysteresis_sequence :
  let r := {| range_min := 0; range_max := 255 |} in
  let start := {| min_state := up; max_state := up |} in
  (T_lo r == 6375 # 100)%Q
  ∧ (T_hi r == 19125 # 100)%Q
  ∧ translate_all r start [0; 64; 128; 192; 256; 192; 128; 64]
      = (start,
         [ [(min_endpoint, down)]; [(min_endpoint, up)]; [];
           [(max_endpoint, down)]; []; []; [(max_endpoint, up)]; [] ])
  ∧ concat (translate_all r start [0; 64; 128; 192; 256; 192; 128; 64]).2
      = [ (min_endpoint, down); (min_endpoint, up);
          (max_endpoint, down); (max_endpoint, up) ].
Proof. by split_and!; vm_compute. Qed.

End HysteresisRun.

(** ** Runs on the small platform *)

Section Runs.
Import Config PosixPath.

#[local] Existing Instance Scenario.platform.

(** C1, the claim as first stated: the name [../..] is not empty and its
    basename is [..], so the path [load] reads is the parent of the
    configuration directory. *)
Lemma load_named_dotdot_escapes :
  load_path Scenario.pad (Some "../..") = "/home/user/.evmapy/.."
  ∧ inside_dir config_dir (load_path Scenario.pad (Some "../..")) = false.
Proof. split; reflexivity. Qed.

(** The name [sub/bar.json] is the request for [bar.json]. *)
Lemma load_named_resolves_basename_witness :
  "sub/bar.json" ≠ ""
  ∧ load_path Scenario.pad (Some "sub/bar.json")
      = "/home/user/.evmapy/bar.json"
  ∧ inside_dir config_dir (load_path Scenario.pad (Some "sub/bar.json"))
      = true.
Proof.
  assert ("sub/bar.json" ≠ "") as Hne by discriminate.
  split; [exact Hne |].
  destruct (load_named_resolves_basename (P := Scenario.platform)
              Scenario.world Scenario.pad "sub/bar.json" Hne)
    as (Hp & _ & _ & _ & _ & Hin).
  split; [rewrite Hp; reflexivity | apply Hin; discriminate].
Defined.

(** The default path of the device named [Foo Bar]. *)
Example load_default_path_pad :
  load_path Scenario.pad None = "/home/user/.evmapy/Foo.Bar.json".
Proof. reflexivity. Qed.

(** [load] on a file that holds a configuration, on one that is not JSON,
    and on one that does not exist. *)
Example load_bar :
  load Scenario.world Scenario.pad (Some "bar.json")
    = Ok Scenario.bar_eventmap.
Proof. reflexivity. Qed.

Example load_broken :
  load Scenario.world Scenario.pad (Some "broken.json")
    = Err (Raised {| path := "/home/user/.evmapy/broken.json";
                     not_found := false;
                     error := "Invalid JSON file: {" |}).
Proof. reflexivity. Qed.

Example load_missing :
  load Scenario.world Scenario.pad None
    = Err (Raised {| path := "/home/user/.evmapy/Foo.Bar.json";
                     not_found := true;
                     error := "File not found" |}).
Proof. reflexivity. Qed.

(** A configuration without the key [grab] is reported by the string form
    of the [KeyError]. *)
Example parse_no_grab : parse (PDict ∅) = Err (Exn KeyError "grab").
Proof. reflexivity. Qed.

Example load_empty :
  load Scenario.world Scenario.pad (Some "empty.json")
    = Err (Raised {| path := "/home/user/.evmapy/empty.json";
                     not_found := false;
                     error := "'grab'" |}).
Proof. reflexivity. Qed.

Example parse_bar : parse Scenario.bar_config = Ok Scenario.bar_eventmap.
Proof. reflexivity. Qed.

(** The ids of [bar_config], whose two buttons have the same action. *)
Lemma parse_ids_unique_witness :
  parse Scenario.bar_config = Ok Scenario.bar_eventmap
  ∧ ∃ bs axs,
      descriptors Scenario.bar_config = Ok (bs, axs)
      ∧ NoDup (action_id <$> allocated bs axs).
Proof.
  split; [reflexivity |].
  destruct (parse_ids_unique Scenario.bar_config Scenario.bar_eventmap)
    as (bl & al & bs & axs & _ & _ & Hd & _ & _ & _ & _ & _ & Hnd & _);
    [reflexivity |].
  exists bs, axs. split; [exact Hd | exact Hnd].
Defined.

(** C4, the claim as first stated: two buttons are listed under the code
    304; the event map that [parse] returns has one entry for that code,
    the descriptor of the second button, so the first listed button has no
    entry that maps to its descriptor. *)
Lemma parse_shared_code_overwrites :
  parse Scenario.twin_config = Ok Scenario.twin_eventmap
  ∧ descriptors Scenario.twin_config
      = Ok ([(KInt 304, Scenario.twin_first);
             (KInt 304, Scenario.twin_second)], [])
  ∧ Scenario.twin_eventmap !! KInt 304 = Some Scenario.twin_second
  ∧ Scenario.twin_eventmap !! KInt 304 ≠ Some Scenario.twin_first
  ∧ ¬ (∀ k e,
         (k, e) ∈ [(KInt 304, Scenario.twin_first);
                   (KInt 304, Scenario.twin_second)] ++ [] →
         Scenario.twin_eventmap !! k = Some e).
Proof.
  assert (Scenario.twin_eventmap !! KInt 304 ≠ Some Scenario.twin_first)
    as Hne.
  { change (Some Scenario.twin_second ≠ Some Scenario.twin_first).
    intros Heq.
    apply (f_equal (λ o : option pyval, v ← o; field v "alias")) in Heq.
    change (Some (PStr "B") = Some (PStr "A")) in Heq. discriminate Heq. }
  split_and!; [reflexivity | reflexivity | reflexivity | exact Hne |].
  intros Hall. apply Hne, Hall. by left.
Qed.

(** The keys of the event map of [twin_config]. *)
Lemma parse_eventmap_entries_witness :
  parse Scenario.twin_config = Ok Scenario.twin_eventmap
  ∧ ∃ bs axs,
      descriptors Scenario.twin_config = Ok (bs, axs)
      ∧ dom Scenario.twin_eventmap
          = {[ KStr "grab" ]} ∪ list_to_set (bs ++ axs).*1.
Proof.
  split; [reflexivity |].
  destruct (parse_eventmap_entries
              Scenario.twin_config Scenario.twin_eventmap)
    as (grab & bl & al & bs & axs & _ & _ & _ & Hd & _ & _ & Hdom & _);
    [reflexivity |].
  exists bs, axs. split; [exact Hd | exact Hdom].
Defined.

(** The axis of [bar_config] has both latches up. *)
Lemma parse_latch_state_witness :
  parse Scenario.bar_config = Ok Scenario.bar_eventmap
  ∧ ∃ bs axs,
      descriptors Scenario.bar_config = Ok (bs, axs)
      ∧ ∀ k a, (k, a) ∈ axs →
          action_field a "min" "state" = Some (PStr "up")
          ∧ action_field a "max" "state" = Some (PStr "up").
Proof.
  split; [reflexivity |].
  destruct (parse_latch_state Scenario.bar_config Scenario.bar_eventmap)
    as (bl & al & bs & axs & _ & _ & Hd & _ & Hup & _); [reflexivity |].
  exists bs, axs. split; [exact Hd | exact Hup].
Defined.

(** The latch states in the event map of [bar_config]. *)
Example parse_bar_states :
  (e ← Scenario.bar_eventmap !! KInt 100; action_field e "min" "state")
    = Some (PStr "up")
  ∧ (e ← Scenario.bar_eventmap !! KInt 100; action_field e "max" "state")
    = Some (PStr "up")
  ∧ (e ← Scenario.bar_eventmap !! KInt 200; action_field e "press" "state")
    = None.
Proof. split_and!; reflexivity. Qed.

Example generate_pad : generate Scenario.pad = Ok Scenario.pad_config.
Proof. reflexivity. Qed.

Example parse_pad : parse Scenario.pad_config = Ok Scenario.pad_eventmap.
Proof. reflexivity. Qed.

(** The default configuration of [pad]: two buttons and one axis under
    three codes, four ids, and all four in the event map. *)
Lemma generate_parse_witness :
  generate Scenario.pad = Ok Scenario.pad_config
  ∧ ∃ eventmap bs axs,
      parse Scenario.pad_config = Ok eventmap
      ∧ descriptors Scenario.pad_config = Ok (bs, axs)
      ∧ length (allocated bs axs) = 4%nat
      ∧ size (eventmap_ids eventmap) = 4%nat.
Proof.
  split; [reflexivity |].
  destruct (generate_parse (P := Scenario.platform)
              Scenario.pad Scenario.pad_config)
    as (bl & al & _ & Hb & Ha & _ & _ & _ & _ & em & bs & axs
        & Hp & Hd & _ & _ & Hlen & _ & _ & _ & _ & Hall); [reflexivity |].
  injection Hb as <-. injection Ha as <-.
  exists em, bs, axs. split_and!; [exact Hp | exact Hd | exact Hlen |].
  apply Hall. apply (bool_decide_unpack _). reflexivity.
Defined.

(** The ids in the event map of the default configuration of [media]. *)
Lemma media_eventmap_ids : eventmap_ids Scenario.media_eventmap = {[ 1; 2 ]}.
Proof.
  unfold eventmap_ids, Scenario.media_eventmap.
  rewrite map_to_list_insert by done. rewrite map_to_list_singleton.
  rewrite !fmap_cons, !bind_cons. simpl. set_solver.
Qed.

(** C8, the claim as first stated.  The device [media] has one key and one
    axis, both under the code 32.  [generate] lists one button and one
    axis for it and [parse] accepts that configuration, but the event map
    has one entry for the code 32, the axis: the ids that it holds are 1
    and 2, two ids and not the three of one button and one axis. *)
Lemma generate_parse_shared_code :
  generate Scenario.media = Ok Scenario.media_config
  ∧ parse Scenario.media_config = Ok Scenario.media_eventmap
  ∧ (∃ b a,
       field Scenario.media_config "buttons" = Some (PList [b])
       ∧ field Scenario.media_config "axes" = Some (PList [a]))
  ∧ dom Scenario.media_eventmap = {[ KStr "grab"; KInt 32 ]}
  ∧ eventmap_ids Scenario.media_eventmap = {[ 1; 2 ]}
  ∧ size (eventmap_ids Scenario.media_eventmap) = 2%nat
  ∧ size (eventmap_ids Scenario.media_eventmap) ≠ (1 + 2 * 1)%nat.
Proof.
  assert (size (eventmap_ids Scenario.media_eventmap) = 2%nat) as Hsize.
  { rewrite media_eventmap_ids, size_union, !size_singleton;
      [done | set_solver]. }
  split_and!.
  - reflexivity.
  - reflexivity.
  - do 2 eexists. split; reflexivity.
  - unfold Scenario.media_eventmap.
    rewrite !dom_insert_L, dom_singleton_L. set_solver.
  - apply media_eventmap_ids.
  - exact Hsize.
  - rewrite Hsize. discriminate.
Qed.

(** The default configuration of [pad] does not grab the device. *)
Lemma generate_default_actions_witness :
  generate Scenario.pad = Ok Scenario.pad_config
  ∧ field Scenario.pad_config "grab" = Some (PBool false).
Proof.
  split; [reflexivity |].
  destruct (generate_default_actions (P := Scenario.platform)
              Scenario.pad Scenario.pad_config)
    as (bl & al & Hg & _); [reflexivity |].
  exact Hg.
Defined.

(** [create] for a device without a configuration, and once more after
    the file was written. *)
Example create_pad :
  let w' := {|
    Scenario.files :=
      <["/home/user/.evmapy/Foo.Bar.json" := Scenario.File "{}"]>
        (Scenario.files Scenario.world);
    Scenario.devices := Scenario.devices Scenario.world |} in
  create Scenario.world "/dev/input/event0" = (w', Ok None)
  ∧ create w' "/dev/input/event0"
      = (w', Ok (Some
          "/home/user/.evmapy/Foo.Bar.json already exists, not overwriting")).
Proof. split; reflexivity. Qed.

Example create_no_device :
  create Scenario.world "/dev/input/event7"
    = (Scenario.world, Ok (Some "No such device /dev/input/event7")).
Proof. reflexivity. Qed.

End Runs.

(** * Further properties of [evmapy/config.py] *)

(** ** What [parse] raises *)

Lemma bind_Err {A B} (m : result exn A) (f : A → result exn B) (e : exn) :
  (x ← m; f x) = Err e → m = Err e ∨ ∃ a, m = Ok a ∧ f a = Err e.
Proof.
  destruct m as [a|e']; run; intros He; [right; by exists a |].
  injection He as ->. by left.
Qed.

Section ParseErrors.
Import Config.

Lemma key_or_type_error_mono keys keys' e :
  keys ⊆ keys' → key_or_type_error keys e → key_or_type_error keys' e.
Proof.
  unfold key_or_type_error. intros Hs [? | [? ?]]; [by left | right].
  split; [done | by apply Hs].
Qed.

Lemma getitem_Err v k e :
  getitem v k = Err e → key_or_type_error [k] e.
Proof.
  unfold key_or_type_error.
  destruct v as [| | | | |d]; simpl; try (intros [= <-]; by left).
  destruct (d !! k); [done |]. intros [= <-]. right. split; [done | by left].
Qed.

Lemma setitem_Err v k x e : setitem v k x = Err e → exn_cls e = TypeError.
Proof. destruct v; simpl; try done; by intros [= <-]. Qed.

Lemma iter_Err v e : iter v = Err e → exn_cls e = TypeError.
Proof. destruct v; simpl; try done; by intros [= <-]. Qed.

Lemma hash_Err v e : hash v = Err e → exn_cls e = TypeError.
Proof. destruct v; simpl; try done; by intros [= <-]. Qed.

Lemma setitem2_Err v k1 k2 x e :
  setitem2 v k1 k2 x = Err e → key_or_type_error [k1] e.
Proof.
  unfold setitem2. intros [Hg | (inner & Hg & He)]%bind_Err.
  - by apply getitem_Err in Hg.
  - apply bind_Err in He as [Hs | (inner' & _ & Hs)];
      left; by eapply setitem_Err.
Qed.

Lemma entry_key_Err entry e :
  entry_key entry = Err e → key_or_type_error ["code"] e.
Proof.
  unfold entry_key. intros [Hg | (c & _ & Hh)]%bind_Err.
  - by apply getitem_Err in Hg.
  - left. by eapply hash_Err.
Qed.

Lemma mark_axis_Err i a e :
  mark_axis i a = Err e → key_or_type_error ["min"; "max"] e.
Proof.
  unfold mark_axis. intros He.
  apply bind_Err in He as [He | (a1 & _ & He)];
    [apply setitem2_Err in He;
     eapply key_or_type_error_mono; [| done]; set_solver |].
  apply bind_Err in He as [He | (a2 & _ & He)];
    [apply setitem2_Err in He;
     eapply key_or_type_error_mono; [| done]; set_solver |].
  apply bind_Err in He as [He | (a3 & _ & He)];
    [apply setitem2_Err in He;
     eapply key_or_type_error_mono; [| done]; set_solver |].
  apply setitem2_Err in He.
  eapply key_or_type_error_mono; [| done]. set_solver.
Qed.

Lemma marked_buttons_Err l i e :
  marked_buttons i l = Err e → key_or_type_error ["press"; "code"] e.
Proof.
  revert i. induction l as [|b l IH]; intros i He; [done |].
  simpl in He.
  apply bind_Err in He as [He | (b' & _ & He)].
  { apply setitem2_Err in He.
    eapply key_or_type_error_mono; [| done]. set_solver. }
  apply bind_Err in He as [He | (k & _ & He)].
  { apply entry_key_Err in He.
    eapply key_or_type_error_mono; [| done]. set_solver. }
  apply bind_Err in He as [He | (rest & _ & He)]; [by eapply IH | done].
Qed.

Lemma marked_axes_Err l i e :
  marked_axes i l = Err e → key_or_type_error ["min"; "max"; "code"] e.
Proof.
  revert i. induction l as [|a l IH]; intros i He; [done |].
  simpl in He.
  apply bind_Err in He as [He | (a' & _ & He)].
  { apply mark_axis_Err in He.
    eapply key_or_type_error_mono; [| done]. set_solver. }
  apply bind_Err in He as [He | (k & _ & He)].
  { apply entry_key_Err in He.
    eapply key_or_type_error_mono; [| done]. set_solver. }
  apply bind_Err in He as [He | (rest & _ & He)]; [by eapply IH | done].
Qed.

Lemma listed_Err config k e :
  listed config k = Err e → key_or_type_error [k] e.
Proof.
  unfold listed. intros [He | (l & _ & He)]%bind_Err.
  - by eapply getitem_Err.
  - left. by eapply iter_Err.
Qed.

Lemma parse_Err_class config e :
  parse config = Err e →
  key_or_type_error
    ["grab"; "buttons"; "axes"; "press"; "code"; "min"; "max"] e.
Proof.
  rewrite parse_unfold. intros He.
  enough (∃ keys, keys ⊆ ["grab"; "buttons"; "axes"; "press"; "code";
                           "min"; "max"]
                  ∧ key_or_type_error keys e) as (keys & Hs & Hk).
  { by apply (key_or_type_error_mono keys). }
  apply bind_Err in He as [He | (grab & _ & He)].
  { eexists. split; [| by eapply getitem_Err]. set_solver. }
  apply bind_Err in He as [He | (ds & _ & He)]; [| done].
  unfold descriptors in He.
  apply bind_Err in He as [He | (bl & _ & He)].
  { eexists. split; [| by eapply listed_Err]. set_solver. }
  apply bind_Err in He as [He | (bs & _ & He)].
  { eexists. split; [| by eapply marked_buttons_Err]. set_solver. }
  apply bind_Err in He as [He | (al & _ & He)].
  { eexists. split; [| by eapply listed_Err]. set_solver. }
  apply bind_Err in He as [He | (axs & _ & He)]; [| done].
  eexists. split; [| by eapply marked_axes_Err]. set_solver.
Qed.

(** X1.  [parse] raises nothing but a [TypeError], or the [KeyError] of one
    of the seven keys it reads. *)
Theorem parse_raises_KeyError_or_TypeError (config : pyval) (e : exn) :
  parse config = Err e →
  exn_cls e = TypeError
  ∨ (exn_cls e = KeyError
     ∧ exn_arg e ∈ ["grab"; "buttons"; "axes"; "press"; "code"; "min"; "max"]).
Proof. apply parse_Err_class. Qed.

End ParseErrors.

(** ** Edge cases of [parse] *)

Section ParseEdges.
Import Config.

Lemma well_formed_button_marks i b :
  well_formed_button b →
  ∃ b' k, mark_button i b = Ok b' ∧ entry_key b' = Ok k.
Proof.
  intros (d & pd & c & k & -> & Hp & Hc & Hk).
  eexists _, k. split; [by apply mark_button_ok |].
  unfold entry_key. run. by rewrite lookup_insert_ne, Hc.
Qed.

(** X2.  [parse] reads [grab] first, then [buttons], and [axes] only after
    the loop over the buttons: on a dictionary it raises the [KeyError] of
    the first of these keys that is missing; what is not a dictionary
    raises a [TypeError]. *)
Theorem parse_missing_key (config : pyval) :
  match config with
  | PDict d =>
      (d !! "grab" = None → parse config = Err (Exn KeyError "grab"))
      ∧ (is_Some (d !! "grab") → d !! "buttons" = None →
           parse config = Err (Exn KeyError "buttons"))
      ∧ (∀ bl, is_Some (d !! "grab") → d !! "buttons" = Some (PList bl) →
           Forall well_formed_button bl → d !! "axes" = None →
           parse config = Err (Exn KeyError "axes"))
  | _ => ∃ e, parse config = Err e ∧ exn_cls e = TypeError
  end.
Proof.
  destruct config as [| | | | |d]; try (by eexists).
  split_and!.
  - intros Hg. unfold parse. run. by rewrite Hg.
  - intros [g Hg] Hb. unfold parse. run. rewrite Hg. run. by rewrite Hb.
  - intros bl [g Hg] Hb Hwb Ha.
    destruct (marked_buttons_ok bl 0 Hwb) as [bs Hbs].
    rewrite parse_unfold. unfold descriptors, listed. run.
    rewrite Hg. run. rewrite Hb. run. rewrite Hbs. run. by rewrite Ha.
Qed.

Lemma bind_of_Ok {A B} (a : A) (f : A → result exn B) :
  (x ← Ok a; f x) = f a.
Proof. reflexivity. Qed.

Lemma marked_buttons_first_error good b rest i e :
  Forall well_formed_button good →
  (b' ← mark_button (i + Z.of_nat (length good)) b; entry_key b') = Err e →
  marked_buttons i (good ++ b :: rest) = Err e.
Proof.
  intros Hg. revert i. induction Hg as [|b0 good Hb0 _ IH]; intros i He.
  - rewrite app_nil_l, marked_buttons_cons. simpl in He.
    rewrite Z.add_0_r in He.
    apply bind_Err in He as [-> | (b' & -> & He)]; [done |].
    by rewrite bind_of_Ok, He.
  - destruct (well_formed_button_marks i b0 Hb0) as (b' & k & Hm & Hk).
    rewrite <- app_comm_cons, marked_buttons_cons, Hm, bind_of_Ok, Hk,
      bind_of_Ok, IH; [done |].
    replace (i + 1 + Z.of_nat (length good))
      with (i + Z.of_nat (length (b0 :: good))) by (simpl length; lia).
    exact He.
Qed.

(** X3.  The loop over the buttons stops at the first button it cannot
    process: when the buttons before it are well formed, [parse] raises the
    exception of that button, whatever follows it in the list and whatever
    the configuration holds for [axes]. *)
Theorem parse_first_malformed_button
    (d : gmap string pyval) (good : list pyval) (b : pyval)
    (rest : list pyval) (e : exn) :
  is_Some (d !! "grab") →
  d !! "buttons" = Some (PList (good ++ b :: rest)) →
  Forall well_formed_button good →
  (b' ← mark_button (Z.of_nat (length good)) b; entry_key b') = Err e →
  parse (PDict d) = Err e.
Proof.
  intros [g Hg] Hb Hgood He.
  rewrite parse_unfold. unfold descriptors, listed. run.
  rewrite Hg. run. rewrite Hb. run.
  by rewrite (marked_buttons_first_error good b rest 0 e).
Qed.

Lemma iter_nonempty_text v :
  (∃ c s, v = PStr (String c s)) ∨ (∃ bd, v = PDict bd ∧ bd ≠ ∅) →
  ∃ k l, iter v = Ok (PStr k :: l).
Proof.
  intros [(c & s & ->) | (bd & -> & Hne)]; simpl; [by eexists _, _ |].
  destruct (map_to_list bd) as [|[k x] l] eqn:Hl.
  - by apply map_to_list_empty_iff in Hl.
  - by eexists _, _.
Qed.

(** X4.  What [parse] accepts in place of a list.  An empty list, an empty
    dictionary and an empty string all list no control: with these for
    [buttons] and [axes] the event map holds the grab flag alone.  A string
    or a dictionary that is not empty, and a value that cannot be iterated
    over, make [parse] raise a [TypeError]. *)
Theorem parse_in_place_of_a_list
    (d : gmap string pyval) (grab buttons axes : pyval) :
  d !! "grab" = Some grab →
  d !! "buttons" = Some buttons →
  d !! "axes" = Some axes →
  let empty v := v = PList [] ∨ v = PDict ∅ ∨ v = PStr "" in
  let text v :=
    (∃ c s, v = PStr (String c s)) ∨ (∃ bd, v = PDict bd ∧ bd ≠ ∅) in
  let scalar v := v = PNone ∨ (∃ x, v = PBool x) ∨ (∃ n, v = PInt n) in
  (empty buttons → empty axes →
     parse (PDict d) = Ok {[ KStr "grab" := grab ]})
  ∧ (text buttons ∨ scalar buttons →
       ∃ e, parse (PDict d) = Err e ∧ exn_cls e = TypeError)
  ∧ (empty buttons → text axes ∨ scalar axes →
       ∃ e, parse (PDict d) = Err e ∧ exn_cls e = TypeError).
Proof.
  intros Hg Hb Ha empty text scalar.
  assert (∀ v, empty v → iter v = Ok []) as Hempty.
  { by intros v [-> | [-> | ->]]. }
  assert (∀ v, scalar v → ∃ e, iter v = Err e ∧ exn_cls e = TypeError)
    as Hscalar.
  { intros v [-> | [[x ->] | [n ->]]]; by eexists. }
  split_and!.
  - intros Hb0 Ha0. rewrite parse_unfold. unfold descriptors, listed. run.
    rewrite Hg. run. rewrite Hb. run. rewrite (Hempty _ Hb0). run.
    rewrite Ha. run. by rewrite (Hempty _ Ha0).
  - intros [Ht | Hs].
    + destruct (iter_nonempty_text _ Ht) as (k & l & Hi).
      rewrite parse_unfold. unfold descriptors, listed. run.
      rewrite Hg. run. rewrite Hb. run. rewrite Hi. run. by eexists.
    + destruct (Hscalar _ Hs) as (e & Hi & He).
      rewrite parse_unfold. unfold descriptors, listed. run.
      rewrite Hg. run. rewrite Hb. run. rewrite Hi. by exists e.
  - intros Hb0 [Ht | Hs].
    + destruct (iter_nonempty_text _ Ht) as (k & l & Hi).
      rewrite parse_unfold. unfold descriptors, listed. run.
      rewrite Hg. run. rewrite Hb. run. rewrite (Hempty _ Hb0). run.
      rewrite Ha. run. rewrite Hi. run. by eexists.
    + destruct (Hscalar _ Hs) as (e & Hi & He).
      rewrite parse_unfold. unfold descriptors, listed. run.
      rewrite Hg. run. rewrite Hb. run. rewrite (Hempty _ Hb0). run.
      rewrite Ha. run. rewrite Hi. by exists e.
Qed.

Lemma mark_axis_action_frame i a a' :
  mark_axis i a = Ok a' →
  ∀ limit f, limit = "min" ∨ limit = "max" → f ≠ "id" → f ≠ "state" →
    action_field a' limit f = action_field a limit f.
Proof.
  intros (d & mn & mx & -> & Hmn & Hmx & ->)%mark_axis_inv limit f Hl H1 H2.
  unfold action_field, marked_limit. simpl.
  destruct Hl as [-> | ->].
  - rewrite lookup_insert_ne, lookup_insert_eq, Hmn by done. simpl.
    by rewrite !lookup_insert_ne.
  - rewrite lookup_insert_eq, Hmx. simpl. by rewrite !lookup_insert_ne.
Qed.

Lemma entry_key_frame e e' :
  field e' "code" = field e "code" → is_Some (field e "code") →
  entry_key e' = entry_key e.
Proof.
  intros Hf [c Hc]. rewrite Hc in Hf.
  destruct e as [| | | | |d]; try done. destruct e' as [| | | | |d']; try done.
  simpl in *. unfold entry_key. run. by rewrite Hc, Hf.
Qed.

(** X5.  [parse] keeps what the configuration says about an axis: in the
    descriptor of a listed axis every field other than [min] and [max] is
    as listed, and so is every field of the two actions other than [id]
    and [state]; the descriptor is stored under the code the axis was
    listed with. *)
Theorem parse_keeps_axis_fields (config : pyval) (eventmap : gmap key pyval) :
  parse config = Ok eventmap →
  ∃ al bs axs,
    listed config "axes" = Ok al
    ∧ descriptors config = Ok (bs, axs)
    ∧ length axs = length al
    ∧ ∀ n a, al !! n = Some a →
        ∃ k a', axs !! n = Some (k, a')
          ∧ entry_key a = Ok k
          ∧ (∀ slot, slot ≠ "min" → slot ≠ "max" →
               field a' slot = field a slot)
          ∧ (∀ limit f, limit = "min" ∨ limit = "max" →
               f ≠ "id" → f ≠ "state" →
               action_field a' limit f = action_field a limit f).
Proof.
  intros (grab & bs & axs & Hg & Hd & ->)%parse_inv.
  destruct (descriptors_inv _ _ _ Hd) as (bl & al & Hbl & Hal & Hbs & Haxs).
  destruct (marked_axes_inv _ _ _ Haxs) as [Hla Halla].
  exists al, bs, axs. split_and!; try done.
  intros n a Ha. destruct (Halla n a Ha) as (k & a' & Hn & Hm & Hk).
  exists k, a'. split_and!; try done.
  - rewrite <- Hk. symmetry. apply entry_key_frame.
    + by apply (mark_axis_frame _ _ _ Hm).
    + rewrite <- (mark_axis_frame _ _ _ Hm "code") by done.
      unfold entry_key in Hk. apply bind_Ok in Hk as (c & Hc & _).
      destruct a' as [| | | | |d']; try done. simpl in *.
      destruct (d' !! "code"); [by eexists | done].
  - by apply (mark_axis_frame _ _ _ Hm).
  - by apply (mark_axis_action_frame _ _ _ Hm).
Qed.

(** X6.  The axes are stored after the buttons, so a button never takes
    the place of an axis: when no two listed axes share a code, each axis
    is found under its code, whatever codes the buttons have. *)
Theorem parse_axes_shadow_buttons
    (config : pyval) (eventmap : gmap key pyval) :
  parse config = Ok eventmap →
  ∃ bs axs,
    descriptors config = Ok (bs, axs)
    ∧ (NoDup axs.*1 → ∀ k a, (k, a) ∈ axs → eventmap !! k = Some a).
Proof.
  intros (grab & bs & axs & Hg & Hd & ->)%parse_inv.
  exists bs, axs. split; [done |]. intros Hnd k a Hin.
  rewrite store_all_app. by apply store_all_NoDup.
Qed.

End ParseEdges.

(** ** When [generate] raises, and what it ignores *)

Section GenerateEdges.
Context {P : Platform}.
Import Config.

Lemma for_each_code_events_raises t evs acc :
  t = Evdev.EV_ABS → evs ≠ [] →
  for_each (generate_code_event t) acc evs
    = Err (Exn AttributeError "'int' object has no attribute 'min'").
Proof.
  intros -> Hne. destruct evs as [|[n c] evs]; [done |].
  rewrite for_each_cons. by unfold generate_code_event.
Qed.

Lemma for_each_generate_entry_closed caps acc :
  for_each generate_entry acc caps =
    if existsb abs_without_info caps
    then Err (Exn AttributeError "'int' object has no attribute 'min'")
    else Ok {| axes := axes acc ++ (axis_of <$> abs_events caps);
               buttons := buttons acc ++ (button_of <$> key_events caps) |}.
Proof.
  revert acc. induction caps as [|entry caps IH]; intros acc.
  - simpl. rewrite !app_nil_r. by destruct acc.
  - rewrite for_each_cons. simpl existsb.
    destruct (abs_without_info entry) eqn:Hbad.
    + destruct entry as [tn t evs | tn evs]; [| done]. simpl in Hbad.
      apply andb_true_iff in Hbad as [Ht Hevs].
      apply bool_decide_eq_true in Ht.
      apply negb_true_iff, bool_decide_eq_false in Hevs.
      simpl generate_entry.
      by rewrite for_each_code_events_raises.
    + assert (∃ acc1, generate_entry acc entry = Ok acc1) as [acc1 Hacc1].
      { destruct entry as [tn t evs | tn evs]; simpl.
        - apply for_each_code_events_ok. intros Ht. simpl in Hbad.
          rewrite bool_decide_eq_true_2 in Hbad by done. simpl in Hbad.
          by apply negb_false_iff, bool_decide_eq_true in Hbad.
        - rewrite for_each_abs_events. by eexists. }
      rewrite Hacc1, bind_of_Ok, IH. simpl orb.
      destruct (existsb abs_without_info caps); [done |].
      assert (for_each generate_entry acc [entry] = Ok acc1) as Hone.
      { by rewrite for_each_cons, Hacc1. }
      apply for_each_generate_entry in Hone as [Ha Hb].
      unfold abs_events, key_events in *. rewrite !bind_cons, !fmap_app.
      simpl in Ha, Hb. rewrite !app_nil_r in Ha, Hb.
      by rewrite Ha, Hb, <- !app_assoc.
Qed.

Lemma generate_eq (device : Evdev.InputDevice) :
  generate device =
    if existsb abs_without_info (Evdev.capabilities device)
    then Err (Exn AttributeError "'int' object has no attribute 'min'")
    else Ok (PDict {[
      "grab" := PBool false;
      "axes" := PList (axis_of <$> abs_events (Evdev.capabilities device));
      "buttons" :=
        PList (button_of <$> key_events (Evdev.capabilities device)) ]}).
Proof.
  unfold generate. rewrite for_each_generate_entry_closed.
  by destruct (existsb abs_without_info (Evdev.capabilities device)).
Qed.

(** X7.  [generate] raises an [AttributeError] exactly when the listing
    gives events of type [EV_ABS] without their [AbsInfo]; for every other
    listing it returns the configuration that does not grab and lists one
    button for each event of type [EV_KEY] and one axis for each event with
    an [AbsInfo], in the order of the listing. *)
Theorem generate_closed_form (device : Evdev.InputDevice) :
  generate device =
    if existsb abs_without_info (Evdev.capabilities device)
    then Err (Exn AttributeError "'int' object has no attribute 'min'")
    else Ok (PDict {[
      "grab" := PBool false;
      "axes" := PList (axis_of <$> abs_events (Evdev.capabilities device));
      "buttons" :=
        PList (button_of <$> key_events (Evdev.capabilities device)) ]}).
Proof. apply generate_eq. Qed.

(** X8.  [generate] ignores what is neither a key nor an axis: inserting
    into the listing (or removing from it) the events of a type other than
    [EV_KEY] and [EV_ABS] changes nothing of what it returns, and neither
    do the name and the path of the device. *)
Theorem generate_ignores_other_types
    (device device' : Evdev.InputDevice) (before after : list Evdev.cap_entry)
    (type_name : string) (type_id : Z) (events : list (Evdev.names * Z)) :
  type_id ≠ Evdev.EV_KEY → type_id ≠ Evdev.EV_ABS →
  Evdev.capabilities device
    = before ++ Evdev.CodeCap type_name type_id events :: after →
  Evdev.capabilities device' = before ++ after →
  generate device = generate device'.
Proof.
  intros Hk Ha Hc Hc'. rewrite !generate_eq, Hc, Hc'.
  rewrite !existsb_app. simpl existsb.
  rewrite (bool_decide_eq_false_2 (type_id = Evdev.EV_ABS)) by done.
  simpl andb. simpl orb.
  unfold abs_events, key_events.
  rewrite !bind_app, !bind_cons.
  by rewrite (bool_decide_eq_false_2 (type_id = Evdev.EV_KEY)).
Qed.

End GenerateEdges.

(** ** The event map of a default configuration *)

Section GenerateEventMap.
Context {P : Platform}.
Import Config.

(** What [parse] makes of a configuration that [generate] returned. *)
Lemma generate_parse_inv device config eventmap :
  generate device = Ok config → parse config = Ok eventmap →
  let kev := key_events (Evdev.capabilities device) in
  let aev := abs_events (Evdev.capabilities device) in
  ∃ bs axs,
    marked_buttons 0 (button_of <$> kev) = Ok bs
    ∧ marked_axes (Z.of_nat (length kev)) (axis_of <$> aev) = Ok axs
    ∧ bs.*1 = KInt <$> kev.*2
    ∧ axs.*1 = KInt <$> aev.*1.*2
    ∧ eventmap = store_all (bs ++ axs) (<[KStr "grab" := PBool false]> ∅).
Proof.
  intros ->%generate_inv (grab & bs & axs & Hg & Hd & ->)%parse_inv kev aev.
  injection Hg as <-.
  apply descriptors_inv in Hd as (bl & al & Hbl & Hal & Hbs & Haxs).
  assert (bl = button_of <$> kev) as -> by (by injection Hbl).
  assert (al = axis_of <$> aev) as -> by (by injection Hal).
  rewrite length_fmap in Haxs.
  exists bs, axs. split_and!; try done.
  - by eapply marked_buttons_generated.
  - by eapply marked_axes_generated.
Qed.

(** X9.  The event map of a default configuration has a key for each
    control of the device and for nothing else: its keys are [grab], which
    maps to false, and the codes of the events of type [EV_KEY] and of the
    events with an [AbsInfo]. *)
Theorem generate_parse_keys
    (device : Evdev.InputDevice) (config : pyval)
    (eventmap : gmap key pyval) :
  generate device = Ok config → parse config = Ok eventmap →
  dom eventmap
    = {[ KStr "grab" ]}
      ∪ list_to_set (KInt <$> (key_events (Evdev.capabilities device)).*2)
      ∪ list_to_set
          (KInt <$> (abs_events (Evdev.capabilities device)).*1.*2)
  ∧ eventmap !! KStr "grab" = Some (PBool false).
Proof.
  intros Hg Hp.
  destruct (generate_parse_inv _ _ _ Hg Hp)
    as (bs & axs & _ & _ & Hkb & Hka & ->).
  split.
  - rewrite store_all_dom, dom_insert_L, dom_empty_L, fmap_app,
      list_to_set_app_L, Hkb, Hka. set_solver.
  - rewrite store_all_lookup_notin; [apply lookup_insert_eq |].
    rewrite fmap_app, Hkb, Hka. intros [Hin | Hin]%elem_of_app;
      apply list_elem_of_fmap in Hin as (c & Hc & _); discriminate Hc.
Qed.

(** X10.  When no two controls of the device share a code, the event map
    of its default configuration maps the code of the n-th key event to a
    button with the id n and the code of the n-th axis event to an axis
    whose endpoints have the next two ids after those of the buttons, the
    state ['up'], and the actions that [generate] gave them. *)
Theorem generate_parse_lookup
    (device : Evdev.InputDevice) (config : pyval)
    (eventmap : gmap key pyval) :
  generate device = Ok config → parse config = Ok eventmap →
  let kev := key_events (Evdev.capabilities device) in
  let aev := abs_events (Evdev.capabilities device) in
  NoDup (kev.*2 ++ aev.*1.*2) →
  (∀ n names code, kev !! n = Some (names, code) →
     let event_name := first_element (Evdev.Resolved names) in
     ∃ b, eventmap !! KInt code = Some b
       ∧ field b "alias" = Some (PStr event_name)
       ∧ field b "code" = Some (PInt code)
       ∧ action_field b "press" "id" = Some (PInt (Z.of_nat n))
       ∧ action_field b "press" "target"
           = Some (PStr ("echo " +:+ event_name))
       ∧ action_field b "press" "state" = None)
  ∧ (∀ n names code info, aev !! n = Some (names, code, info) →
       let event_name := first_element (Evdev.ResolvedCode names code) in
       let first_id := Z.of_nat (length kev) + 2 * Z.of_nat n in
       ∃ a, eventmap !! KInt code = Some a
         ∧ field a "alias" = Some (PStr event_name)
         ∧ field a "code" = Some (PInt code)
         ∧ action_field a "min" "id" = Some (PInt first_id)
         ∧ action_field a "max" "id" = Some (PInt (first_id + 1))
         ∧ action_field a "min" "state" = Some (PStr "up")
         ∧ action_field a "max" "state" = Some (PStr "up")
         ∧ action_field a "min" "value" = Some (PInt (Evdev.min info))
         ∧ action_field a "max" "value" = Some (PInt (Evdev.max info))
         ∧ action_field a "min" "target"
             = Some (PStr (("echo " +:+ event_name) +:+ " min"))
         ∧ action_field a "max" "target"
             = Some (PStr (("echo " +:+ event_name) +:+ " max"))).
Proof.
  intros Hg Hp kev aev Hnd.
  destruct (generate_parse_inv _ _ _ Hg Hp)
    as (bs & axs & Hbs & Haxs & Hkb & Hka & ->).
  fold kev in Hbs, Haxs, Hkb. fold aev in Haxs, Hka.
  assert (NoDup (bs ++ axs).*1) as Hkeys.
  { rewrite fmap_app, Hkb, Hka, <- fmap_app.
    apply NoDup_fmap_2; [by intros x y [= ->] | done]. }
  destruct (marked_buttons_inv _ _ _ Hbs) as [_ Hallb].
  destruct (marked_axes_inv _ _ _ Haxs) as [_ Halla].
  split.
  - intros n names code Hn event_name.
    destruct (Hallb n (button_of (names, code))) as (k & b' & Hb' & Hm & Hk).
    { by rewrite list_lookup_fmap, Hn. }
    assert (k = KInt code) as ->.
    { apply (f_equal (λ l : list key, l !! n)) in Hkb.
      rewrite !list_lookup_fmap, Hb', Hn in Hkb. by injection Hkb. }
    exists b'. rewrite Z.add_0_l in Hm.
    destruct (mark_button_frame _ _ _ Hm) as [Hslots Hfields].
    split_and!.
    + apply store_all_NoDup; [done |].
      apply elem_of_app. left. by eapply list_elem_of_lookup_2.
    + by rewrite Hslots.
    + by rewrite Hslots.
    + by eapply mark_button_id.
    + by rewrite Hfields.
    + by rewrite Hfields.
  - intros n names code info Hn event_name first_id.
    destruct (Halla n (axis_of (names, code, info)))
      as (k & a' & Ha' & Hm & Hk).
    { by rewrite list_lookup_fmap, Hn. }
    assert (k = KInt code) as ->.
    { apply (f_equal (λ l : list key, l !! n)) in Hka.
      rewrite !list_lookup_fmap, Ha', Hn in Hka. by injection Hka. }
    exists a'. fold first_id in Hm.
    destruct (mark_axis_fields _ _ _ Hm) as (? & ? & ? & ?).
    pose proof (mark_axis_frame _ _ _ Hm) as Hslots.
    pose proof (mark_axis_action_frame _ _ _ Hm) as Hfields.
    split_and!; try done.
    + apply store_all_NoDup; [done |].
      apply elem_of_app. right. by eapply list_elem_of_lookup_2.
    + by rewrite Hslots.
    + by rewrite Hslots.
    + by rewrite Hfields; [| left | |].
    + by rewrite Hfields; [| right | |].
    + by rewrite Hfields; [| left | |].
    + by rewrite Hfields; [| right | |].
Qed.

End GenerateEventMap.

(** ** [create] and [save] when something fails *)

Section CreateEdges.
Context {P : Platform}.
Import Config.

(** X11.  When [create] raises, one of three things happened to the file
    system.  Nothing; or [save] made the configuration directory and
    nothing else; or the device was opened, its configuration generated,
    the configuration file opened for writing, which leaves it there and
    empty, and it was the writing that raised.  So a failure of the device,
    of [generate], of [os.mkdir] or of [open] leaves no file, and a failure
    of the writing leaves one that is not the whole configuration. *)
Theorem create_failure_states
    (w w' : fs) (dev_path : string) (e : exn) :
  create w dev_path = (w', Err e) →
  w' = w
  ∨ mkdir w config_dir = Ok w'
  ∨ ∃ device config w1 w2,
      open_device w dev_path = Ok device
      ∧ generate device = Ok config
      ∧ (mkdir w config_dir = Ok w1
         ∨ ∃ e1, mkdir w config_dir = Err e1
             ∧ isinstance e1 FileExistsError = true ∧ w1 = w)
      ∧ open_w w1 (_get_device_config_path device) = Ok w2
      ∧ dump w2 (_get_device_config_path device) (json_dumps config)
          = (w', Err e).
Proof.
  unfold create. intros Hc.
  destruct (open_device w dev_path) as [device | exc] eqn:Hdev.
  - destruct (path_exists w _); [done |].
    destruct (generate device) as [config | e'] eqn:Hg;
      [| injection Hc; auto].
    unfold save, write_file in Hc.
    destruct (mkdir w config_dir) as [w1 | e1] eqn:Hm.
    + destruct (open_w w1 _) as [w2 | e2] eqn:Ho.
      * destruct (dump w2 _ _) as [w3 [[] | e3]] eqn:Hd; [done |].
        injection Hc as <- <-. right. right.
        exists device, config, w1, w2. split_and!; try done. by left.
      * injection Hc as <- _. right. by left.
    + destruct (isinstance e1 FileExistsError) eqn:Hi.
      * destruct (open_w w _) as [w2 | e2] eqn:Ho.
        -- destruct (dump w2 _ _) as [w3 [[] | e3]] eqn:Hd; [done |].
           injection Hc as <- <-. right. right.
           exists device, config, w, w2. split_and!; try done.
           right. by exists e1.
        -- injection Hc as <- _. by left.
      * injection Hc as <- _. by left.
  - destruct (isinstance exc FileNotFoundError); [done |].
    injection Hc as <- _. by left.
Qed.

(** X12.  [create] does not overwrite what it wrote itself.  On a platform
    where a path exists once it was written, and where the device can
    still be opened, calling [create] again after a call that returned
    nothing returns the error string and leaves the file system as the
    first call left it. *)
Theorem create_twice (w w' : fs) (dev_path : string) :
  (∀ w1 w2 path text,
     open_write w1 path text = Ok w2 → path_exists w2 path = true) →
  open_device w' dev_path = open_device w dev_path →
  create w dev_path = (w', Ok None) →
  ∃ device,
    open_device w dev_path = Ok device
    ∧ create w' dev_path
        = (w', Ok (Some (_get_device_config_path device
                           +:+ " already exists, not overwriting"))).
Proof.
  intros Hlaw Hdev Hc. unfold create in *. rewrite Hdev.
  destruct (open_device w dev_path) as [device | exc];
    [| by destruct (isinstance exc FileNotFoundError)].
  exists device. split; [done |].
  destruct (path_exists w _); [done |].
  destruct (generate device) as [config | e]; [| done].
  destruct (save w _ config) as [w2 r] eqn:Hs.
  apply save_state in Hs as [[-> (w1 & Ho & _)] | [e ->]]; [| done].
  run in Hc. injection Hc as <-. by rewrite (Hlaw _ _ _ _ Ho).
Qed.

End CreateEdges.

(** ** The message of a [ConfigError] *)

Section LoadMessages.
Context {P : Platform}.
Import Config.

Lemma not_found_not_value exc :
  isinstance exc FileNotFoundError = true →
  isinstance exc ValueError = false.
Proof. destruct exc as [c a]. by destruct c. Qed.

Lemma key_or_type_error_class keys exc :
  key_or_type_error keys exc →
  isinstance exc ValueError = false
  ∧ isinstance exc FileNotFoundError = false.
Proof.
  destruct exc as [c a]. unfold key_or_type_error. simpl.
  by intros [-> | [-> _]].
Qed.

(** X13.  When the file [load] resolved cannot be opened because it does
    not exist, the [ConfigError] it raises reads as the path followed by
    [: File not found], and its [not_found] flag is set. *)
Theorem load_not_found_message
    (w : fs) (device : Evdev.InputDevice) (name : option string) (exc : exn) :
  open_read w (load_path device name) = Err exc →
  isinstance exc FileNotFoundError = true →
  ∃ e, load w device name = Err (Raised e)
    ∧ not_found e = true
    ∧ ConfigError_str e = load_path device name +:+ ": File not found".
Proof.
  intros Ho Hf. unfold load, load_from, read. rewrite Ho. run.
  rewrite isinstance_Exception. eexists. split; [done |].
  unfold ConfigError_init, ConfigError_str.
  by rewrite (not_found_not_value _ Hf), Hf.
Qed.

(** X14.  A file that holds JSON which [parse] does not accept is not
    reported as invalid JSON: [load] raises a [ConfigError] whose message is
    the string form of the [KeyError] or [TypeError] that [parse] raised,
    with the [not_found] flag clear. *)
Theorem load_rejected_config
    (w : fs) (device : Evdev.InputDevice) (name : option string)
    (text : string) (config : pyval) (exc : exn) :
  open_read w (load_path device name) = Ok text →
  json_loads text = Some config →
  parse config = Err exc →
  ∃ e, load w device name = Err (Raised e)
    ∧ not_found e = false
    ∧ error e = exn_str exc
    ∧ ConfigError_str e = load_path device name +:+ ": " +:+ exn_str exc
    ∧ (exn_cls exc = TypeError ∨ exn_cls exc = KeyError).
Proof.
  intros Ho Hj Hp. unfold load, load_from, read. rewrite Ho. run.
  rewrite Hj, Hp, isinstance_Exception. eexists. split; [done |].
  pose proof (parse_Err_class _ _ Hp) as Hk.
  destruct (key_or_type_error_class _ _ Hk) as [Hv Hf].
  unfold ConfigError_init, ConfigError_str. rewrite Hv, Hf.
  split_and!; try done. destruct Hk as [? | [? _]]; auto.
Qed.

End LoadMessages.

(** ** More on the paths [load] resolves *)

Section PathEdges.
Context {P : Platform}.
Import Config PosixPath.

Lemma endswith_sep_split p :
  endswith_sep p = true → ∃ a, p = a +:+ String sep "".
Proof.
  induction p as [|c r IH]; [done |]. simpl.
  destruct r as [|c' r'].
  - intros ->%Ascii.eqb_eq. by exists "".
  - intros [a ->]%IH. by exists (String c a).
Qed.

Lemma basename_dir_prefix d leaf :
  has_sep leaf = false → basename (dir_prefix d +:+ leaf) = leaf.
Proof.
  intros Hl. unfold dir_prefix.
  destruct (bool_decide (d = "")) eqn:Hd; simpl.
  - apply bool_decide_eq_true in Hd as ->. string_app.
    by apply basename_without_sep.
  - destruct (endswith_sep d) eqn:He.
    + apply endswith_sep_split in He as [a ->].
      rewrite string_app_assoc. string_app. by apply basename_after_sep.
    + rewrite string_app_assoc. string_app. by apply basename_after_sep.
Qed.

Lemma string_app_length (a b : string) :
  String.length (a +:+ b) = (String.length a + String.length b)%nat.
Proof. induction a as [|c a IH]; string_app; simpl; [done | by rewrite IH]. Qed.

Lemma string_app_inv_r (a b t : string) : a +:+ t = b +:+ t → a = b.
Proof.
  revert b. induction a as [|c a IH]; intros [|c' b]; string_app; intros He.
  - done.
  - apply (f_equal String.length) in He. simpl in He.
    rewrite string_app_length in He. lia.
  - apply (f_equal String.length) in He. simpl in He.
    rewrite string_app_length in He. lia.
  - injection He as -> He. by rewrite (IH _ He).
Qed.

Lemma is_word_dot : Re.is_word "."%char = false.
Proof. reflexivity. Qed.

Lemma sub_nonword_idempotent s :
  Re.sub_nonword (Re.sub_nonword s) = Re.sub_nonword s.
Proof.
  induction s as [|c s IH]; [done |].
  change (Re.sub_nonword (String c s))
    with (String (if Re.is_word c then c else "."%char) (Re.sub_nonword s)).
  change (Re.sub_nonword (String ?x ?r))
    with (String (if Re.is_word x then x else "."%char) (Re.sub_nonword r)).
  rewrite IH. f_equal.
  destruct (Re.is_word c) eqn:Hw; [by rewrite Hw | by rewrite is_word_dot].
Qed.

(** X15.  [load] looks at the basename of a name only.  When the basename
    is not empty, a name and its basename load the same file, and the file
    [load] reads has the requested basename. *)
Theorem load_named_by_basename
    (w : fs) (device : Evdev.InputDevice) (name : string) :
  basename name ≠ "" →
  load w device (Some name) = load w device (Some (basename name))
  ∧ basename (load_path device (Some name)) = basename name.
Proof.
  intros Hb. assert (name ≠ "") as Hn by (by intros ->).
  pose proof (basename_no_sep name) as Hsep.
  assert (load_path device (Some name) = join config_dir (basename name))
    as Hp.
  { unfold load_path. simpl. by rewrite bool_decide_eq_false_2. }
  split.
  - unfold load. rewrite Hp. f_equal. unfold load_path. simpl.
    rewrite bool_decide_eq_false_2 by done. simpl.
    by rewrite (basename_without_sep _ Hsep).
  - rewrite Hp, join_no_sep by done. by apply basename_dir_prefix.
Qed.

(** X16.  A name that is not empty but has an empty basename, such as a
    name that ends in a separator, does not fall back to the default
    configuration: [load] reads the configuration directory itself, which
    is a different path. *)
Theorem load_named_trailing_separator
    (device : Evdev.InputDevice) (name : string) :
  name ≠ "" → basename name = "" →
  load_path device (Some name) = dir_prefix config_dir
  ∧ load_path device (Some name) ≠ load_path device None.
Proof.
  intros Hn Hb.
  assert (load_path device (Some name) = dir_prefix config_dir) as Hp.
  { unfold load_path. simpl. rewrite bool_decide_eq_false_2 by done. simpl.
    rewrite Hb, join_no_sep by done. apply string_app_nil_r. }
  split; [done |]. rewrite Hp. unfold load_path, _get_device_config_path.
  simpl. rewrite join_no_sep
    by (by rewrite has_sep_app, sub_nonword_no_sep).
  rewrite <- (string_app_nil_r (dir_prefix config_dir)) at 1.
  intros He%String.app_inj.
  by destruct (Re.sub_nonword (Evdev.name device)).
Qed.

(** X17.  Two devices have the same default configuration path exactly
    when their names are the same once each character that is not a word
    character is replaced by a dot; replacing twice is the same as
    replacing once, so a device and one named like its configuration file
    stem share the path. *)
Theorem default_path_collisions (device device' : Evdev.InputDevice) :
  (_get_device_config_path device = _get_device_config_path device'
   ↔ Re.sub_nonword (Evdev.name device)
       = Re.sub_nonword (Evdev.name device'))
  ∧ (Evdev.name device' = Re.sub_nonword (Evdev.name device) →
     _get_device_config_path device' = _get_device_config_path device).
Proof.
  assert (∀ s, has_sep (Re.sub_nonword s +:+ ".json") = false) as Hsep.
  { intros s. by rewrite has_sep_app, sub_nonword_no_sep. }
  unfold _get_device_config_path. split; [split |].
  - rewrite !join_no_sep by done.
    intros He%String.app_inj. by apply string_app_inv_r in He.
  - by intros ->.
  - intros ->. by rewrite sub_nonword_idempotent.
Qed.

End PathEdges.

(** ** What [parse] and [load] accept *)

Section Acceptance.
Context {P : Platform}.
Import Config.

(** X18.  [parse] returns an event map exactly for the configurations that
    have the key [grab] and whose [buttons] and [axes] list well-formed
    controls: dictionaries with a hashable [code] and with a dictionary for
    [press], or for [min] and [max]. *)
Theorem parse_accepts_iff (config : pyval) :
  (∃ eventmap, parse config = Ok eventmap) ↔
  ∃ grab bl al,
    getitem config "grab" = Ok grab
    ∧ listed config "buttons" = Ok bl ∧ listed config "axes" = Ok al
    ∧ Forall well_formed_button bl ∧ Forall well_formed_axis al.
Proof. apply parse_returns_iff. Qed.

Lemma load_from_Ok (w : fs) p eventmap :
  load_from w p = Ok eventmap
  ↔ (config ← read w p; parse config) = Ok eventmap.
Proof.
  unfold load_from.
  destruct (config ← read w p; parse config) as [em|e].
  - by split; intros [= ->].
  - by rewrite isinstance_Exception.
Qed.

Lemma read_Ok (w : fs) p config :
  read w p = Ok config
  ↔ ∃ text, open_read w p = Ok text ∧ json_loads text = Some config.
Proof.
  unfold read. destruct (open_read w p) as [text|e]; run.
  - destruct (json_loads text) as [c|] eqn:Hj.
    + split; [intros [= ->]; by exists text |].
      intros (t & [= <-] & Ht). rewrite Hj in Ht. by injection Ht as ->.
    + split; [done |]. intros (t & [= <-] & Ht). by rewrite Hj in Ht.
  - split; [done | by intros (t & ? & _)].
Qed.

(** X19.  [load] returns an event map exactly when the file it resolved
    can be read, its text is JSON, and the configuration it holds is one
    that [parse] accepts. *)
Theorem load_returns_iff
    (w : fs) (device : Evdev.InputDevice) (name : option string) :
  (∃ eventmap, load w device name = Ok eventmap) ↔
  ∃ text config grab bl al,
    open_read w (load_path device name) = Ok text
    ∧ json_loads text = Some config
    ∧ getitem config "grab" = Ok grab
    ∧ listed config "buttons" = Ok bl ∧ listed config "axes" = Ok al
    ∧ Forall well_formed_button bl ∧ Forall well_formed_axis al.
Proof.
  unfold load. split.
  - intros [eventmap Hl]. apply load_from_Ok in Hl.
    apply bind_Ok in Hl as (config & Hr & Hp).
    apply read_Ok in Hr as (text & Ho & Hj).
    destruct (proj1 (parse_returns_iff config)) as (grab & bl & al & H);
      [by exists eventmap |].
    by exists text, config, grab, bl, al.
  - intros (text & config & grab & bl & al & Ho & Hj & H).
    destruct (proj2 (parse_returns_iff config)) as [em Hp];
      [by exists grab, bl, al |].
    exists em. apply load_from_Ok.
    assert (read w (load_path device name) = Ok config) as ->.
    { apply read_Ok. by exists text. }
    done.
Qed.

End Acceptance.

(** ** More runs on the small platform *)

Section MoreRuns.
Import Config PosixPath.

#[local] Existing Instance Scenario.platform.

(** An empty dictionary has no [grab]. *)
Lemma parse_raises_KeyError_or_TypeError_witness :
  parse (PDict ∅) = Err (Exn KeyError "grab")
  ∧ (exn_cls (Exn KeyError "grab") = TypeError
     ∨ (exn_cls (Exn KeyError "grab") = KeyError
        ∧ exn_arg (Exn KeyError "grab")
            ∈ ["grab"; "buttons"; "axes"; "press"; "code"; "min"; "max"])).
Proof.
  split; [reflexivity |].
  apply (parse_raises_KeyError_or_TypeError (PDict ∅)). reflexivity.
Defined.

(** The second button of [no_press_config] stops the loop: neither the
    value after it nor the missing [axes] is reported. *)
Lemma parse_first_malformed_button_witness :
  parse (PDict Scenario.no_press_config) = Err (Exn KeyError "press").
Proof.
  apply (parse_first_malformed_button Scenario.no_press_config
    [PDict {[ "alias" := PStr "Bar"; "code" := PInt 200;
              "press" := PDict (Scenario.act "key" "KEY_ENTER") ]}]
    (PDict {[ "alias" := PStr "Baz"; "code" := PInt 201 ]})
    [PNone]).
  - exists (PBool false). reflexivity.
  - reflexivity.
  - constructor; [| constructor].
    exists {[ "alias" := PStr "Bar"; "code" := PInt 200;
              "press" := PDict (Scenario.act "key" "KEY_ENTER") ]},
      (Scenario.act "key" "KEY_ENTER"), (PInt 200), (KInt 200).
    split_and!; reflexivity.
  - reflexivity.
Defined.

(** An empty dictionary for [buttons] and an empty string for [axes]. *)
Lemma parse_in_place_of_a_list_witness :
  parse (PDict {[ "grab" := PBool true; "buttons" := PDict ∅;
                  "axes" := PStr "" ]})
    = Ok {[ KStr "grab" := PBool true ]}.
Proof.
  apply (parse_in_place_of_a_list
    {[ "grab" := PBool true; "buttons" := PDict ∅; "axes" := PStr "" ]}
    (PBool true) (PDict ∅) (PStr "")); auto.
Defined.

(** The axis of [bar_config] keeps its alias and the targets of its
    actions. *)
Lemma parse_keeps_axis_fields_witness :
  parse Scenario.bar_config = Ok Scenario.bar_eventmap
  ∧ ∃ (al : list pyval) (axs : list (key * pyval)),
      listed Scenario.bar_config "axes" = Ok al
      ∧ length axs = length al.
Proof.
  split; [reflexivity |].
  destruct (parse_keeps_axis_fields Scenario.bar_config Scenario.bar_eventmap)
    as (al & bs & axs & Hal & _ & Hlen & _); [reflexivity |].
  by exists al, axs.
Defined.

Lemma parse_axes_shadow_buttons_witness :
  parse Scenario.bar_config = Ok Scenario.bar_eventmap
  ∧ ∃ bs axs, descriptors Scenario.bar_config = Ok (bs, axs).
Proof.
  split; [reflexivity |].
  destruct (parse_axes_shadow_buttons
              Scenario.bar_config Scenario.bar_eventmap)
    as (bs & axs & Hd & _); [reflexivity |].
  by exists bs, axs.
Defined.

(** [generate] on the device whose axis has no [AbsInfo]. *)
Example generate_bare :
  generate Scenario.bare
    = Err (Exn AttributeError "'int' object has no attribute 'min'").
Proof. reflexivity. Qed.

(** The events of type [EV_SYN] of [pad] do not count. *)
Lemma generate_ignores_other_types_witness :
  generate Scenario.pad = generate Scenario.pad_plain.
Proof.
  apply (generate_ignores_other_types (P := Scenario.platform)
    Scenario.pad Scenario.pad_plain []
    (Evdev.capabilities Scenario.pad_plain)
    "EV_SYN" 0 [(Evdev.Name "SYN_REPORT", 0)]).
  - discriminate.
  - discriminate.
  - reflexivity.
  - reflexivity.
Defined.

Lemma generate_parse_keys_witness :
  generate Scenario.pad = Ok Scenario.pad_config
  ∧ parse Scenario.pad_config = Ok Scenario.pad_eventmap
  ∧ Scenario.pad_eventmap !! KStr "grab" = Some (PBool false).
Proof.
  split_and!; [reflexivity | reflexivity |].
  apply (generate_parse_keys (P := Scenario.platform)
    Scenario.pad Scenario.pad_config Scenario.pad_eventmap); reflexivity.
Defined.

Lemma generate_parse_lookup_witness :
  generate Scenario.pad = Ok Scenario.pad_config
  ∧ parse Scenario.pad_config = Ok Scenario.pad_eventmap
  ∧ NoDup [304; 305; 0]
  ∧ ∃ b, Scenario.pad_eventmap !! KInt 305 = Some b
      ∧ action_field b "press" "id" = Some (PInt 1).
Proof.
  assert (NoDup [304; 305; 0]) as Hnd.
  { apply (bool_decide_unpack _). reflexivity. }
  split_and!; [reflexivity | reflexivity | exact Hnd |].
  destruct (generate_parse_lookup (P := Scenario.platform)
    Scenario.pad Scenario.pad_config Scenario.pad_eventmap)
    as [Hkeys _]; [reflexivity | reflexivity | exact Hnd |].
  destruct (Hkeys 1%nat (Evdev.Name "BTN_B") 305 eq_refl)
    as (b & Hb & _ & _ & Hid & _).
  by exists b.
Defined.

(** On a full disk [create] for the device [pad] raises what the writing
    raises, and leaves the configuration file empty. *)
Lemma create_failure_states_witness :
  create (P := Scenario.full_disk) Scenario.world "/dev/input/event0"
    = (Scenario.world_with_empty_default,
       Err (Exn OSError "No space left on device"))
  ∧ _get_device_config_path (P := Scenario.full_disk) Scenario.pad
      = "/home/user/.evmapy/Foo.Bar.json"
  ∧ Scenario.files Scenario.world_with_empty_default
      !! "/home/user/.evmapy/Foo.Bar.json" = Some (Scenario.File "")
  ∧ (Scenario.world_with_empty_default = Scenario.world
     ∨ mkdir (Platform := Scenario.full_disk) Scenario.world
         (config_dir (Platform := Scenario.full_disk))
         = Ok Scenario.world_with_empty_default
     ∨ ∃ device config w1 w2,
         open_device (Platform := Scenario.full_disk) Scenario.world
           "/dev/input/event0" = Ok device
         ∧ generate (P := Scenario.full_disk) device = Ok config
         ∧ (mkdir (Platform := Scenario.full_disk) Scenario.world
              (config_dir (Platform := Scenario.full_disk)) = Ok w1
            ∨ ∃ e1,
                mkdir (Platform := Scenario.full_disk) Scenario.world
                  (config_dir (Platform := Scenario.full_disk)) = Err e1
                ∧ isinstance e1 FileExistsError = true ∧ w1 = Scenario.world)
         ∧ open_w (Platform := Scenario.full_disk) w1
             (_get_device_config_path (P := Scenario.full_disk) device)
             = Ok w2
         ∧ dump (Platform := Scenario.full_disk) w2
             (_get_device_config_path (P := Scenario.full_disk) device)
             (json_dumps (Platform := Scenario.full_disk) config)
             = (Scenario.world_with_empty_default,
                Err (Exn OSError "No space left on device"))).
Proof.
  split; [reflexivity |]. split; [reflexivity |]. split; [reflexivity |].
  apply (create_failure_states (P := Scenario.full_disk)
    Scenario.world Scenario.world_with_empty_default "/dev/input/event0"
    (Exn OSError "No space left on device")).
  reflexivity.
Defined.

(** [create] for the device [bare] raises what [generate] raises, and the
    file system is as it was. *)
Example create_bare_raises :
  create Scenario.world_with_bare "/dev/input/event1"
    = (Scenario.world_with_bare,
       Err (Exn AttributeError "'int' object has no attribute 'min'")).
Proof. reflexivity. Qed.

Lemma scenario_written_exists (w1 w2 : Scenario.state) path text :
  open_write w1 path text = Ok w2 → path_exists w2 path = true.
Proof.
  unfold open_write, write_file. simpl.
  destruct (Scenario.files w1 !! path) as [[|t]|];
    intros [= <-]; simpl; by rewrite lookup_insert_eq.
Qed.

Lemma create_twice_witness :
  create Scenario.world "/dev/input/event0"
    = (Scenario.world_with_default, Ok None)
  ∧ ∃ device,
      open_device Scenario.world "/dev/input/event0" = Ok device
      ∧ create Scenario.world_with_default "/dev/input/event0"
          = (Scenario.world_with_default,
             Ok (Some (_get_device_config_path device
                         +:+ " already exists, not overwriting"))).
Proof.
  split; [reflexivity |].
  apply (create_twice (P := Scenario.platform)
    Scenario.world Scenario.world_with_default "/dev/input/event0").
  - apply scenario_written_exists.
  - reflexivity.
  - reflexivity.
Defined.

Lemma load_not_found_message_witness :
  ∃ e, load Scenario.world Scenario.pad None = Err (Raised e)
    ∧ not_found e = true
    ∧ ConfigError_str e
        = load_path Scenario.pad None +:+ ": File not found".
Proof.
  apply (load_not_found_message (P := Scenario.platform)
    Scenario.world Scenario.pad None
    (Exn FileNotFoundError "/home/user/.evmapy/Foo.Bar.json"));
    reflexivity.
Defined.

Lemma load_rejected_config_witness :
  ∃ e, load Scenario.world Scenario.pad (Some "empty.json") = Err (Raised e)
    ∧ not_found e = false
    ∧ error e = "'grab'".
Proof.
  destruct (load_rejected_config (P := Scenario.platform)
    Scenario.world Scenario.pad (Some "empty.json") "{}" (PDict ∅)
    (Exn KeyError "grab")) as (e & Hl & Hn & He & _);
    [reflexivity | reflexivity | reflexivity |].
  exists e. split_and!; [exact Hl | exact Hn |]. rewrite He. reflexivity.
Defined.

Lemma load_named_by_basename_witness :
  basename "sub/bar.json" ≠ ""
  ∧ load Scenario.world Scenario.pad (Some "sub/bar.json")
      = load Scenario.world Scenario.pad (Some "bar.json").
Proof.
  assert (basename "sub/bar.json" ≠ "") as Hb by discriminate.
  split; [exact Hb |].
  destruct (load_named_by_basename (P := Scenario.platform)
    Scenario.world Scenario.pad "sub/bar.json" Hb) as [Hl _].
  exact Hl.
Defined.

Lemma load_named_trailing_separator_witness :
  "sub/" ≠ "" ∧ basename "sub/" = ""
  ∧ load_path Scenario.pad (Some "sub/") = "/home/user/.evmapy/".
Proof.
  assert ("sub/" ≠ "") as Hn by discriminate.
  split_and!; [exact Hn | reflexivity |].
  destruct (load_named_trailing_separator (P := Scenario.platform)
    Scenario.pad "sub/" Hn eq_refl) as [Hp _].
  rewrite Hp. reflexivity.
Defined.

End MoreRuns.
